(** * metal-cpp-minimal: a shallow embedding of [main.cc]

    The program adds two arrays of [2^24] single-precision floats on a
    Metal device, times the round trip and checks the result on the
    host.  This file embeds the host program as Rocq functions and
    proves the properties its description states.

    Conventions.
    - [float] is IEEE-754 binary32, taken from the Standard Library's
      executable specification of floating-point arithmetic
      ([SpecFloat], precision 24, [emax] 128).
    - Integers are [Z]; [unsigned int] arithmetic has its wrap-around
      written out, and so has the 64-bit difference of two clock
      readings.
    - The host program threads one [World]: the shared-memory heap of
      [MTL::Buffer] objects, what [printf] has written, the state of
      the C library's generator behind [rand()], and the readings of
      [std::chrono::system_clock].
    - [assert] is live (no [NDEBUG]): a failed assertion ends the run
      in [Abort], keeping the world reached, so that what was printed
      before the abort can be inspected.
    - What the Metal device does with a committed command buffer is a
      field of the [Device]: the host program is verified against every
      device, and [ideal_gpu] is the device that runs the kernel of
      [shaderSrc] as written.
    - [newBuffer] is taken to return a buffer.  [main.cc] does not
      check its result; with a null buffer the first access through its
      contents is a crash, which is neither of the two outcomes modelled
      ([Ok] and [Abort]).  Everything proved about [prepareData] and
      what follows it is about runs whose three allocations succeed.
    - Reference counting ([retain]/[release]) and the autorelease pool
      carry no observable behaviour here and are left out. *)

From Stdlib Require Import ZArith Lia List Bool String.
From Stdlib Require Import Floats.SpecFloat.
Import ListNotations.

Local Open Scope Z_scope.

(* ================================================================= *)
(** ** Single-precision floats *)

Module Float32.

Definition prec : Z := 24.
Definition emax : Z := 128.

Definition float : Type := spec_float.

(** Conversion of a C integer to [float] (round to nearest, ties to
    even); [(float)0] is [+0]. *)
Definition of_int (z : Z) : float := binary_normalize prec emax z 0 false.

Definition add : float -> float -> float := SFadd prec emax.
Definition mul : float -> float -> float := SFmul prec emax.
Definition div : float -> float -> float := SFdiv prec emax.

(** The C comparison operators on [float]. *)
Definition eq (x y : float) : bool := SFeqb x y.
Definition ne (x y : float) : bool := negb (SFeqb x y).
Definition lt (x y : float) : bool := SFltb x y.
Definition le (x y : float) : bool := SFleb x y.

Definition zero : float := S754_zero false.
Definition neg_zero : float := S754_zero true.
Definition one : float := SFone prec emax.
Definition infinity : float := S754_infinity false.

(** The 32-bit pattern of a float: sign bit, 8 exponent bits, 23
    fraction bits.  [SpecFloat] keeps no NaN payload; the default
    quiet NaN stands for all of them. *)
Definition bits (x : float) : Z :=
  match x with
  | S754_zero s => if s then 2 ^ 31 else 0
  | S754_infinity s => (if s then 2 ^ 31 else 0) + 255 * 2 ^ 23
  | S754_nan => 255 * 2 ^ 23 + 2 ^ 22
  | S754_finite s m e =>
      (if s then 2 ^ 31 else 0) +
      (if Zpos m <? 2 ^ 23 then Zpos m
       else (e + 150) * 2 ^ 23 + (Zpos m - 2 ^ 23))
  end.

(** [SpecFloat] rounds by shifting the mantissa right one bit at a
    time while keeping a round bit and a sticky bit.  [shr_n z k] is
    [z] after [k] such shifts, [shift_round z k] the mantissa that
    rounding to nearest, ties to even, makes of it, and
    [nearest_int z] the integer that [(float)z] stands for: [z]
    rounded to 24 significant bits. *)
Definition shr_n (z : Z) (k : nat) : shr_record :=
  Nat.iter k shr_1 {| shr_m := z; shr_r := false; shr_s := false |}.

Definition shift_round (z : Z) (k : nat) : Z :=
  round_nearest_even (shr_m (shr_n z k)) (loc_of_shr_record (shr_n z k)).

Definition nearest_int (z : Z) : Z :=
  let k := Z.to_nat (Zdigits2 z - prec) in
  shift_round z k * 2 ^ Z.of_nat k.

Definition is_nan (x : float) : bool :=
  match x with S754_nan => true | _ => false end.

Definition is_zero (x : float) : bool :=
  match x with S754_zero _ => true | _ => false end.

End Float32.

Definition float : Type := Float32.float.

(* ================================================================= *)
(** ** Compile-time constants of [main.cc] *)

Definition UINT_MODULUS : Z := 2 ^ 32.

(** A value brought back into the range of a signed 64-bit integer
    ([long long], the tick count of a clock), as two's-complement
    arithmetic does. *)
Definition wrap_int64 (z : Z) : Z := (z + 2 ^ 63) mod 2 ^ 64 - 2 ^ 63.

(** [sizeof(float)]; binary32 occupies four bytes. *)
Definition sizeof_float : Z := 4.

(** [constexpr const unsigned int arrayLength = 1 << 24;] *)
Definition arrayLength : Z := Z.shiftl 1 24 mod UINT_MODULUS.

(** [constexpr const unsigned int bufferSize = arrayLength * sizeof(float);] *)
Definition bufferSize : Z := (arrayLength * sizeof_float) mod UINT_MODULUS.

Definition shaderSrc : string :=
"
#include <metal_stdlib>
using namespace metal;
kernel void add_arrays(device const float* inA,
                       device const float* inB,
                       device float* result,
                       uint index [[thread_position_in_grid]])
{
    result[index] = inA[index] + inB[index];
}
".

(* ================================================================= *)
(** ** The platform: what [<cstdlib>] and [<chrono>] supply *)

(** [main.cc] uses [rand()], [RAND_MAX] and [system_clock] without
    defining them.  They are parameters of the development.
    - [rand] is the C library's generator as a step on its hidden
      state; [srand seed] is the state after [srand(seed)].  A process
      that never calls [srand] starts in [srand 1] (ISO C, 7.22.2.2).
    - [ticks_per_ms] is the number of [system_clock] ticks in one
      millisecond. *)
Class Platform : Type := {
  RAND_MAX : Z;
  rand_state : Type;
  rand : rand_state -> Z * rand_state;
  srand : Z -> rand_state;
  ticks_per_ms : Z
}.

(** What the C and C++ standards promise about them: [RAND_MAX] is a
    positive [int], [rand()] returns a value between [0] and
    [RAND_MAX], and the clock period is positive. *)
Class PlatformOk (P : Platform) : Prop := {
  RAND_MAX_range : 0 < RAND_MAX < 2 ^ 31;
  rand_range : forall s, 0 <= fst (rand s) <= RAND_MAX;
  ticks_per_ms_pos : 0 < ticks_per_ms
}.

(* ================================================================= *)
(** ** Metal objects *)

Definition handle : Type := nat.

(** An [MTL::Buffer] in shared storage: its length in bytes and its
    contents seen through a [float*]. *)
Record Buffer : Type := {
  buf_length : Z;
  buf_contents : Z -> float
}.

Definition Heap : Type := handle -> Buffer.

(** [MTL::Size]. *)
Record Size : Type := { width : Z; height : Z; depth : Z }.

Definition Size_Make (w h d : Z) : Size :=
  {| width := w; height := h; depth := d |}.

Variant Library : Type := MkLibrary (source : string).
Variant Function : Type := MkFunction (name : string).
Variant CommandQueue : Type := MkCommandQueue.

Record ComputePipelineState : Type := {
  pso_function : Function;
  maxTotalThreadsPerThreadgroup : Z
}.

(** What a compute command encoder has recorded: the pipeline state,
    the buffer bound at each argument index (with its offset), and the
    dispatches in order. *)
Record ComputeCommandEncoder : Type := {
  enc_pipeline : option ComputePipelineState;
  enc_buffers : Z -> option (handle * Z);
  enc_dispatches : list (Size * Size)
}.

Definition empty_encoder : ComputeCommandEncoder :=
  {| enc_pipeline := None;
     enc_buffers := fun _ => None;
     enc_dispatches := [] |}.

Definition setComputePipelineState (pso : ComputePipelineState)
    (enc : ComputeCommandEncoder) : ComputeCommandEncoder :=
  {| enc_pipeline := Some pso;
     enc_buffers := enc_buffers enc;
     enc_dispatches := enc_dispatches enc |}.

Definition setBuffer (b : handle) (offset index : Z)
    (enc : ComputeCommandEncoder) : ComputeCommandEncoder :=
  {| enc_pipeline := enc_pipeline enc;
     enc_buffers := fun i => if i =? index then Some (b, offset)
                             else enc_buffers enc i;
     enc_dispatches := enc_dispatches enc |}.

Definition dispatchThreads (threadsPerGrid threadsPerThreadgroup : Size)
    (enc : ComputeCommandEncoder) : ComputeCommandEncoder :=
  {| enc_pipeline := enc_pipeline enc;
     enc_buffers := enc_buffers enc;
     enc_dispatches :=
       enc_dispatches enc ++ [(threadsPerGrid, threadsPerThreadgroup)] |}.

(** The device.  Every call that may return [nullptr] returns an
    [option]; [execute enc heap b] is what buffer [b] holds once the
    committed commands [enc] have run on shared memory [heap], that
    is, by the time [waitUntilCompleted] returns. *)
Record Device : Type := {
  newLibrary : string -> option Library;
  newFunction : Library -> string -> option Function;
  newComputePipelineState : Function -> option ComputePipelineState;
  newCommandQueue : option CommandQueue;
  commandBuffer_ok : bool;
  computeCommandEncoder_ok : bool;
  fresh_contents : handle -> Z -> float;
  execute : ComputeCommandEncoder -> Heap -> handle -> Z -> float
}.

(* ================================================================= *)
(** ** The world and the host program's monad *)

(** What [printf] was handed, one constructor per format string of
    [main.cc]; the conversion of the arguments to text is not
    modelled. *)
Variant Line : Type :=
  | LineElapsed (ms : Z)                               (* "%lld ms\n" *)
  | LineBandwidth (gbps : float)                       (* "BW: %.3f GB/s\n" *)
  | LineComputeError (index : Z) (result sum : float).
      (* "Compute ERROR: index=%lu result=%g vs %g=a+b\n" *)

Section Host.

Context {P : Platform}.

Record World : Type := {
  w_heap : Heap;
  w_next : handle;            (* next unused buffer handle *)
  w_stdout : list Line;       (* oldest line first *)
  w_rng : rand_state;
  w_clock : nat -> Z;         (* the n-th reading of system_clock *)
  w_reads : nat               (* readings taken so far *)
}.

Definition set_heap (h : Heap) (w : World) : World :=
  {| w_heap := h; w_next := w_next w; w_stdout := w_stdout w;
     w_rng := w_rng w; w_clock := w_clock w; w_reads := w_reads w |}.

(** The world a process starts in: nothing allocated, nothing
    printed, the generator as after [srand(1)]. *)
Definition initial_world (heap : Heap) (clock : nat -> Z) : World :=
  {| w_heap := heap; w_next := 1%nat; w_stdout := [];
     w_rng := srand 1; w_clock := clock; w_reads := 0%nat |}.

Inductive outcome (A : Type) : Type :=
| Ok (a : A) (w : World)
| Abort (w : World).

Arguments Ok {A} a w.
Arguments Abort {A} w.

Definition M (A : Type) : Type := World -> outcome A.

Definition ret {A} (a : A) : M A := fun w => Ok a w.

Definition bind {A B} (m : M A) (k : A -> M B) : M B :=
  fun w => match m w with
           | Ok a w' => k a w'
           | Abort w' => Abort w'
           end.

Definition final_world {A} (o : outcome A) : World :=
  match o with Ok _ w => w | Abort w => w end.

Definition aborted {A} (o : outcome A) : bool :=
  match o with Ok _ _ => false | Abort _ => true end.

End Host.

Arguments Ok {P A} a w.
Arguments Abort {P A} w.

Notation "x <- m ;; k" := (bind m (fun x => k))
  (at level 61, m at next level, right associativity).
Notation "m ;; k" := (bind m (fun _ => k))
  (at level 61, right associativity).

Section Primitives.

Context {P : Platform}.

(** [assert(cond)]. *)
Definition assert (cond : bool) : M unit :=
  fun w => if cond then Ok tt w else Abort w.

(** The world with one more line on standard output. *)
Definition print (l : Line) (w : World) : World :=
  {| w_heap := w_heap w; w_next := w_next w;
     w_stdout := w_stdout w ++ [l];
     w_rng := w_rng w; w_clock := w_clock w; w_reads := w_reads w |}.

Definition printf (l : Line) : M unit := fun w => Ok tt (print l w).

(** [rand()]. *)
Definition rand_call : M Z :=
  fun w => Ok (fst (rand (w_rng w)))
    {| w_heap := w_heap w; w_next := w_next w; w_stdout := w_stdout w;
       w_rng := snd (rand (w_rng w));
       w_clock := w_clock w; w_reads := w_reads w |}.

(** [std::chrono::system_clock::now()], as the tick count of the time
    point. *)
Definition system_clock_now : M Z :=
  fun w => Ok (w_clock w (w_reads w))
    {| w_heap := w_heap w; w_next := w_next w; w_stdout := w_stdout w;
       w_rng := w_rng w; w_clock := w_clock w; w_reads := S (w_reads w) |}.

(** [b - a] on two time points: the difference of the tick counts in
    64 bits. *)
Definition duration_between (a b : Z) : Z := wrap_int64 (b - a).

(** [duration_cast<milliseconds>(d).count()]: the quotient truncated
    toward zero. *)
Definition duration_cast_ms (ticks : Z) : Z := Z.quot ticks ticks_per_ms.

(** [ptr[index]] read through the [float*] of buffer [b]. *)
Definition load (b : handle) (index : Z) : M float :=
  fun w => Ok (buf_contents (w_heap w b) index) w.

Definition heap_store (b : handle) (index : Z) (v : float) (h : Heap) : Heap :=
  fun b' =>
    if Nat.eqb b' b then
      {| buf_length := buf_length (h b);
         buf_contents := fun i => if i =? index then v
                                  else buf_contents (h b) i |}
    else h b'.

(** [ptr[index] = v]. *)
Definition store (b : handle) (index : Z) (v : float) : M unit :=
  fun w => Ok tt (set_heap (heap_store b index v (w_heap w)) w).

(** The world with one more buffer, under the handle [w_next w]. *)
Definition allocate (device : Device) (length : Z) (w : World) : World :=
  {| w_heap := fun b' =>
       if Nat.eqb b' (w_next w) then
         {| buf_length := length;
            buf_contents := fresh_contents device (w_next w) |}
       else w_heap w b';
     w_next := S (w_next w); w_stdout := w_stdout w;
     w_rng := w_rng w; w_clock := w_clock w; w_reads := w_reads w |}.

(** [device->newBuffer(length, MTL::ResourceStorageModeShared)], for
    an allocation that succeeds: a buffer no other handle names.  (The
    call can return null, and [main.cc] does not look; that run crashes
    at the first access and is not modelled.) *)
Definition newBuffer (device : Device) (length : Z) : M handle :=
  fun w => Ok (w_next w) (allocate device length w).

(** [commandBuffer->commit(); commandBuffer->waitUntilCompleted();]:
    when the wait returns the device has done its work on shared
    memory. *)
Definition commit_and_wait (device : Device) (enc : ComputeCommandEncoder)
    : M unit :=
  fun w =>
    Ok tt (set_heap
             (fun b => {| buf_length := buf_length (w_heap w b);
                          buf_contents := execute device enc (w_heap w) b |})
             w).

(** [for (unsigned long index = start; ...; ++index) body], run for
    [count] iterations. *)
Fixpoint for_loop (count : nat) (index : Z) (body : Z -> M unit) : M unit :=
  match count with
  | O => ret tt
  | S count' => body index ;; for_loop count' (index + 1) body
  end.

(** [for (unsigned long index = 0; index < n; ++index) body]. *)
Definition for_index_below (n : Z) (body : Z -> M unit) : M unit :=
  for_loop (Z.to_nat n) 0 body.

End Primitives.

(* ================================================================= *)
(** ** [class MetalAdder] *)

Record MetalAdder : Type := {
  _mDevice : Device;
  _mAddFunctionPSO : ComputePipelineState;
  _mCommandQueue : CommandQueue;
  _mBufferA : handle;
  _mBufferB : handle;
  _mBufferResult : handle
}.

Section Program.

Context {P : Platform}.

(** [MetalAdder::MetalAdder].  The buffer members are not set by the
    constructor; handle [0] stands for the pointer they hold until
    [prepareData] runs. *)
Definition MetalAdder_new (device : Device) : M MetalAdder :=
  let defaultLibrary := newLibrary device shaderSrc in
  assert (match defaultLibrary with Some _ => true | None => false end) ;;
  match defaultLibrary with
  | None => fun w => Abort w
  | Some lib =>
    let addFunction := newFunction device lib "add_arrays" in
    assert (match addFunction with Some _ => true | None => false end) ;;
    match addFunction with
    | None => fun w => Abort w
    | Some fn =>
      let pso := newComputePipelineState device fn in
      assert (match pso with Some _ => true | None => false end) ;;
      match pso with
      | None => fun w => Abort w
      | Some pso =>
        let queue := newCommandQueue device in
        assert (match queue with Some _ => true | None => false end) ;;
        match queue with
        | None => fun w => Abort w
        | Some queue =>
          ret {| _mDevice := device;
                 _mAddFunctionPSO := pso;
                 _mCommandQueue := queue;
                 _mBufferA := 0%nat;
                 _mBufferB := 0%nat;
                 _mBufferResult := 0%nat |}
        end
      end
    end
  end.

(** One iteration of the loop of [generateRandomFloatData]. *)
Definition generate_body (buffer : handle) (index : Z) : M unit :=
  r <- rand_call ;;
  store buffer index
    (Float32.div (Float32.of_int r) (Float32.of_int RAND_MAX)).

(** [MetalAdder::generateRandomFloatData]. *)
Definition generateRandomFloatData (buffer : handle) : M unit :=
  for_index_below arrayLength (generate_body buffer).

(** [MetalAdder::prepareData]; the object with its three buffer
    members set is returned. *)
Definition prepareData (self : MetalAdder) : M MetalAdder :=
  a <- newBuffer (_mDevice self) bufferSize ;;
  b <- newBuffer (_mDevice self) bufferSize ;;
  r <- newBuffer (_mDevice self) bufferSize ;;
  generateRandomFloatData a ;;
  generateRandomFloatData b ;;
  ret {| _mDevice := _mDevice self;
         _mAddFunctionPSO := _mAddFunctionPSO self;
         _mCommandQueue := _mCommandQueue self;
         _mBufferA := a;
         _mBufferB := b;
         _mBufferResult := r |}.

(** The thread-group width computed in [encodeAddCommand]
    ([NS::UInteger] against the [unsigned int] [arrayLength]). *)
Definition threadGroupSize (pso : ComputePipelineState) : Z :=
  let threadGroupSize := maxTotalThreadsPerThreadgroup pso in
  if threadGroupSize >? arrayLength then arrayLength else threadGroupSize.

(** [MetalAdder::encodeAddCommand]. *)
Definition encodeAddCommand (self : MetalAdder)
    (computeEncoder : ComputeCommandEncoder) : ComputeCommandEncoder :=
  let computeEncoder :=
    setComputePipelineState (_mAddFunctionPSO self) computeEncoder in
  let computeEncoder := setBuffer (_mBufferA self) 0 0 computeEncoder in
  let computeEncoder := setBuffer (_mBufferB self) 0 1 computeEncoder in
  let computeEncoder := setBuffer (_mBufferResult self) 0 2 computeEncoder in
  let gridSize := Size_Make arrayLength 1 1 in
  let threadgroupSize :=
    Size_Make (threadGroupSize (_mAddFunctionPSO self)) 1 1 in
  dispatchThreads gridSize threadgroupSize computeEncoder.

(** One iteration of the loop of [verifyResults]. *)
Definition verify_body (self : MetalAdder) (index : Z) : M unit :=
  let a := _mBufferA self in
  let b := _mBufferB self in
  let result := _mBufferResult self in
  r <- load result index ;;
  x <- load a index ;;
  y <- load b index ;;
  if Float32.ne r (Float32.add x y) then
    r' <- load result index ;;
    x' <- load a index ;;
    y' <- load b index ;;
    printf (LineComputeError index r' (Float32.add x' y')) ;;
    r'' <- load result index ;;
    x'' <- load a index ;;
    y'' <- load b index ;;
    assert (Float32.eq r'' (Float32.add x'' y''))
  else ret tt.

(** [MetalAdder::verifyResults]. *)
Definition verifyResults (self : MetalAdder) : M unit :=
  for_index_below arrayLength (verify_body self).

(** The value handed to the second [printf] of [sendComputeCommand]:
    [2000.0f * bufferSize / 1024 / 1024 / 1024 / elapsed], every
    operand converted to [float] and every operation in [float]. *)
Definition bandwidth (elapsed : Z) : float :=
  Float32.div
    (Float32.div
       (Float32.div
          (Float32.div
             (Float32.mul (Float32.of_int 2000) (Float32.of_int bufferSize))
             (Float32.of_int 1024))
          (Float32.of_int 1024))
       (Float32.of_int 1024))
    (Float32.of_int elapsed).

(** [MetalAdder::sendComputeCommand].  The encoder starts empty;
    [endEncoding] changes nothing that is modelled. *)
Definition sendComputeCommand (self : MetalAdder) : M unit :=
  assert (commandBuffer_ok (_mDevice self)) ;;
  assert (computeCommandEncoder_ok (_mDevice self)) ;;
  let computeEncoder := encodeAddCommand self empty_encoder in
  a <- system_clock_now ;;
  commit_and_wait (_mDevice self) computeEncoder ;;
  b <- system_clock_now ;;
  let elapsed := duration_cast_ms (duration_between a b) in
  printf (LineElapsed elapsed) ;;
  printf (LineBandwidth (bandwidth elapsed)) ;;
  verifyResults self.

(** [main], for the device [MTL::CreateSystemDefaultDevice()]
    returned; [Ok 0] is the exit status. *)
Definition main (device : Device) : M Z :=
  adder <- MetalAdder_new device ;;
  adder <- prepareData adder ;;
  sendComputeCommand adder ;;
  ret 0.

End Program.

(* ================================================================= *)
(** ** Reading the buffers of an adder *)

Section Observations.

Context {P : Platform}.

Definition A_at (self : MetalAdder) (w : World) (i : Z) : float :=
  buf_contents (w_heap w (_mBufferA self)) i.

Definition B_at (self : MetalAdder) (w : World) (i : Z) : float :=
  buf_contents (w_heap w (_mBufferB self)) i.

Definition Result_at (self : MetalAdder) (w : World) (i : Z) : float :=
  buf_contents (w_heap w (_mBufferResult self)) i.

(** [a[index] + b[index]] as the host computes it. *)
Definition sum_at (self : MetalAdder) (w : World) (i : Z) : float :=
  Float32.add (A_at self w i) (B_at self w i).

(** The world [sendComputeCommand] has reached when it calls
    [verifyResults], provided its two assertions held: the device has
    run, the clock was read twice, and the two report lines are
    out. *)
Definition world_after_wait (self : MetalAdder) (w : World) : World :=
  {| w_heap := fun b =>
       {| buf_length := buf_length (w_heap w b);
          buf_contents :=
            execute (_mDevice self) (encodeAddCommand self empty_encoder)
                    (w_heap w) b |};
     w_next := w_next w; w_stdout := w_stdout w;
     w_rng := w_rng w; w_clock := w_clock w;
     w_reads := S (S (w_reads w)) |}.

(** The value of the [n]-th call of [rand()] from generator state
    [s], and the state after [n] calls. *)
Fixpoint rand_nth (s : rand_state) (n : nat) : Z :=
  match n with
  | O => fst (rand s)
  | S n' => rand_nth (snd (rand s)) n'
  end.

Fixpoint rand_advance (s : rand_state) (n : nat) : rand_state :=
  match n with
  | O => s
  | S n' => rand_advance (snd (rand s)) n'
  end.

(** [(float)r / (float)(RAND_MAX)]. *)
Definition random_float (r : Z) : float :=
  Float32.div (Float32.of_int r) (Float32.of_int RAND_MAX).

(** The elapsed time [sendComputeCommand] measures from world [w]. *)
Definition elapsed_ms (w : World) : Z :=
  duration_cast_ms
    (duration_between (w_clock w (w_reads w)) (w_clock w (S (w_reads w)))).

End Observations.

(* ================================================================= *)
(** ** What a dispatch runs *)

(** [start, start+1, ..., start+len-1]. *)
Fixpoint range (start : Z) (len : nat) : list Z :=
  match len with
  | O => []
  | S len' => start :: range (start + 1) len'
  end.

(** [dispatchThreads(threadsPerGrid, _)] launches one thread per
    position of the grid; [thread_position_in_grid] of each, as
    [(x, y, z)]. *)
Definition grid_positions (threadsPerGrid : Size) : list (Z * Z * Z) :=
  flat_map
    (fun z =>
       flat_map
         (fun y =>
            map (fun x => (x, y, z))
                (range 0 (Z.to_nat (width threadsPerGrid))))
         (range 0 (Z.to_nat (height threadsPerGrid))))
    (range 0 (Z.to_nat (depth threadsPerGrid))).

(** The values the kernel parameter
    [uint index [[thread_position_in_grid]]] takes over one dispatch:
    the [x] coordinate of every thread. *)
Definition thread_indices (dispatch : Size * Size) : list Z :=
  map (fun p => fst (fst p)) (grid_positions (fst dispatch)).

(** One thread of the kernel [add_arrays] of [shaderSrc]:
    [result[index] = inA[index] + inB[index]], as the new contents of
    [result]. *)
Definition add_arrays (inA inB result : Z -> float) (index : Z) : Z -> float :=
  fun i => if i =? index then Float32.add (inA index) (inB index)
           else result i.

(** What a device that runs [add_arrays] as written leaves in buffer
    [h]: the buffer bound at argument 2 has been through every thread
    of every dispatch, reading the buffers bound at arguments 0 and 1;
    the other buffers are as they were.  (The bindings of [main.cc]
    all have offset 0, and offsets are not modelled.) *)
Definition run_add_arrays (enc : ComputeCommandEncoder) (heap : Heap)
    (h : handle) : Z -> float :=
  match enc_buffers enc 0, enc_buffers enc 1, enc_buffers enc 2 with
  | Some (a, _), Some (b, _), Some (r, _) =>
      if Nat.eqb h r then
        fold_left (add_arrays (buf_contents (heap a)) (buf_contents (heap b)))
                  (flat_map thread_indices (enc_dispatches enc))
                  (buf_contents (heap r))
      else buf_contents (heap h)
  | _, _, _ => buf_contents (heap h)
  end.

(** A device on which everything succeeds and the kernel runs as
    written. *)
Definition ideal_gpu (maxThreads : Z) : Device :=
  {| newLibrary := fun src => Some (MkLibrary src);
     newFunction := fun _ name => Some (MkFunction name);
     newComputePipelineState := fun fn =>
       Some {| pso_function := fn;
               maxTotalThreadsPerThreadgroup := maxThreads |};
     newCommandQueue := Some MkCommandQueue;
     commandBuffer_ok := true;
     computeCommandEncoder_ok := true;
     fresh_contents := fun _ _ => Float32.zero;
     execute := run_add_arrays |}.

(* ================================================================= *)
(** ** The description's formulas, for comparison with the code *)

(** "[2000 × bufferSize / 1024³ / elapsed_ms]": one division by
    [1024³], where the code divides by [1024] three times. *)
Definition bandwidth_spec (elapsed_ms : Z) : float :=
  Float32.div
    (Float32.div
       (Float32.mul (Float32.of_int 2000) (Float32.of_int bufferSize))
       (Float32.of_int (1024 ^ 3)))
    (Float32.of_int elapsed_ms).

(* ================================================================= *)
(** ** Concrete platforms, devices and worlds *)

(** A platform with a 31-bit [RAND_MAX], the Lehmer generator
    [x := 16807 * x mod (2^31 - 1)] behind [rand()], and a
    microsecond [system_clock]. *)
Definition lehmer : Platform :=
  {| RAND_MAX := 2147483647;
     rand_state := Z;
     rand := fun x => let x' := (16807 * x) mod 2147483647 in (x', x');
     srand := fun seed => seed;
     ticks_per_ms := 1000 |}.

(** A device that compiles everything and whose kernel runs leave
    shared memory as it was. *)
Definition idle_gpu (maxThreads : Z) : Device :=
  {| newLibrary := fun src => Some (MkLibrary src);
     newFunction := fun _ name => Some (MkFunction name);
     newComputePipelineState := fun fn =>
       Some {| pso_function := fn;
               maxTotalThreadsPerThreadgroup := maxThreads |};
     newCommandQueue := Some MkCommandQueue;
     commandBuffer_ok := true;
     computeCommandEncoder_ok := true;
     fresh_contents := fun _ _ => Float32.zero;
     execute := fun _ heap b => buf_contents (heap b) |}.

(** An adder on [idle_gpu] whose buffers are handles 1, 2 and 3. *)
Definition idle_adder : MetalAdder :=
  {| _mDevice := idle_gpu 1024;
     _mAddFunctionPSO :=
       {| pso_function := MkFunction "add_arrays";
          maxTotalThreadsPerThreadgroup := 1024 |};
     _mCommandQueue := MkCommandQueue;
     _mBufferA := 1%nat;
     _mBufferB := 2%nat;
     _mBufferResult := 3%nat |}.

(** A heap whose buffers A and B hold [a] and [b] in every element, and
    whose Result buffer holds [r0] in element 0 and [r] elsewhere. *)
Definition constant_heap (a b r0 r : float) : Heap :=
  fun h =>
    {| buf_length := bufferSize;
       buf_contents := fun i =>
         match h with
         | 1%nat => a
         | 2%nat => b
         | _ => if i =? 0 then r0 else r
         end |}.

Definition world_of (heap : Heap) (clock : nat -> Z) (rng : Z) : @World lehmer :=
  @Build_World lehmer heap 4%nat [] rng clock 0%nat.

(** Two clock readings three milliseconds apart. *)
Definition clock_3ms (n : nat) : Z :=
  match n with O => 1000000 | _ => 1003000 end.

(** A clock stepped back by five seconds between two readings. *)
Definition clock_stepped_back (n : nat) : Z :=
  match n with O => 6000000 | _ => 1000000 end.

(** Two readings within the same millisecond. *)
Definition clock_same_ms (n : nat) : Z :=
  match n with O => 1000000 | _ => 1000400 end.

(** The [float] nearest to [125 / 3]. *)
Definition bw_3ms : float := S754_finite false 10922667 (-18).

(** Everything adds up: [0.5 + 0.5 = 1]. *)
Definition half : float := Float32.div (Float32.of_int 1) (Float32.of_int 2).
Definition good_world : @World lehmer :=
  world_of (constant_heap half half Float32.one Float32.one) clock_3ms 1.

(** The sums are [+0] and element 0 of Result is [-0]. *)
Definition signed_zero_world : @World lehmer :=
  world_of (constant_heap Float32.zero Float32.zero
                          Float32.neg_zero Float32.zero) clock_3ms 1.

(** Element 0 of Result is wrong: [0.5 + 0.5] against [0]. *)
Definition mismatch_world : @World lehmer :=
  world_of (constant_heap half half Float32.zero Float32.one) clock_3ms 1.

(** A correct Result under a clock that was stepped back. *)
Definition stepped_back_world : @World lehmer :=
  world_of (constant_heap half half Float32.one Float32.one)
           clock_stepped_back 1.

(** A correct Result, timed within one millisecond. *)
Definition same_ms_world : @World lehmer :=
  world_of (constant_heap half half Float32.one Float32.one) clock_same_ms 1.

(** A generator state from which the next value of [rand()] is
    [RAND_MAX - 1]. *)
Definition near_max_world : @World lehmer :=
  world_of (constant_heap Float32.zero Float32.zero Float32.zero Float32.zero)
           clock_3ms 739806647.

(* ================================================================= *)
(** ** Runs of [main] up to the prepared inputs *)

Section Runs.

Context {P : Platform}.

(** [main] up to and including [prepareData]. *)
Definition prepared_run (device : Device) : M MetalAdder :=
  adder <- MetalAdder_new device ;;
  prepareData adder.

(** Element [i] of input buffer A, respectively B, once the inputs
    are prepared; [None] when the run has aborted before. *)
Definition input_A (o : outcome MetalAdder) (i : Z) : option float :=
  match o with
  | Ok adder w => Some (A_at adder w i)
  | Abort _ => None
  end.

Definition input_B (o : outcome MetalAdder) (i : Z) : option float :=
  match o with
  | Ok adder w => Some (B_at adder w i)
  | Abort _ => None
  end.

End Runs.

(** Two runs of the program on the same platform: different devices,
    different memory at start, different clocks. *)
Definition first_run : outcome MetalAdder :=
  @prepared_run lehmer (idle_gpu 1024)
    (initial_world
       (constant_heap Float32.zero Float32.zero Float32.zero Float32.zero)
       clock_3ms).

Definition second_run : outcome MetalAdder :=
  @prepared_run lehmer (idle_gpu 512)
    (initial_world
       (constant_heap half half Float32.one Float32.one)
       clock_stepped_back).

(* ================================================================= *)
(** ** More devices, adders and worlds *)

(** A device whose command queue hands out no command buffer. *)
Definition no_command_buffer_gpu : Device :=
  {| newLibrary := fun src => Some (MkLibrary src);
     newFunction := fun _ name => Some (MkFunction name);
     newComputePipelineState := fun fn =>
       Some {| pso_function := fn; maxTotalThreadsPerThreadgroup := 1024 |};
     newCommandQueue := Some MkCommandQueue;
     commandBuffer_ok := false;
     computeCommandEncoder_ok := true;
     fresh_contents := fun _ _ => Float32.zero;
     execute := fun _ heap b => buf_contents (heap b) |}.

Definition stalled_adder : MetalAdder :=
  {| _mDevice := no_command_buffer_gpu;
     _mAddFunctionPSO :=
       {| pso_function := MkFunction "add_arrays";
          maxTotalThreadsPerThreadgroup := 1024 |};
     _mCommandQueue := MkCommandQueue;
     _mBufferA := 1%nat;
     _mBufferB := 2%nat;
     _mBufferResult := 3%nat |}.

(** An adder on [ideal_gpu] whose buffers are handles 1, 2 and 3. *)
Definition ideal_adder : MetalAdder :=
  {| _mDevice := ideal_gpu 1024;
     _mAddFunctionPSO :=
       {| pso_function := MkFunction "add_arrays";
          maxTotalThreadsPerThreadgroup := 1024 |};
     _mCommandQueue := MkCommandQueue;
     _mBufferA := 1%nat;
     _mBufferB := 2%nat;
     _mBufferResult := 3%nat |}.

(** A holds [+infinity] and B [-infinity] throughout, so that every sum
    is NaN; Result holds NaN, which is what the kernel computes. *)
Definition nan_world : @World lehmer :=
  world_of (constant_heap (S754_infinity false) (S754_infinity true)
                          S754_nan S754_nan) clock_3ms 1.

(** [x] is a zero, a finite number or an infinity of sign [s]
    ([true] for minus); NaN has neither sign. *)
Definition has_sign (s : bool) (x : float) : bool :=
  match x with
  | S754_zero s' | S754_infinity s' | S754_finite s' _ _ => Bool.eqb s' s
  | S754_nan => false
  end.

(* ================================================================= *)
(** * Properties *)

(** ** The constants *)

Lemma arrayLength_value : arrayLength = 16777216.
Proof. reflexivity. Qed.

Lemma bufferSize_value : bufferSize = 67108864.
Proof. reflexivity. Qed.

Lemma arrayLength_nonneg : 0 <= arrayLength.
Proof. rewrite arrayLength_value. lia. Qed.

(** ** Small runs *)

Example bits_of_one : Float32.bits Float32.one = 1065353216.
Proof. reflexivity. Qed.

Example bits_of_minus_three : Float32.bits (Float32.of_int (-3)) = 3225419776.
Proof. reflexivity. Qed.

Example half_plus_half : Float32.add half half = Float32.one.
Proof. reflexivity. Qed.

Example lehmer_first_values :
  map (@rand_nth lehmer 1) [0; 1; 2]%nat = [16807; 282475249; 1622650073].
Proof. reflexivity. Qed.

(** Three iterations of the filling loop on buffer 1: three quotients
    are stored, element 3 keeps what it held, and the generator has
    moved on by three values. *)
Example fill_three_elements :
  let w' :=
    final_world (@for_loop lehmer 3 0 (@generate_body lehmer 1%nat) good_world) in
  map (buf_contents (w_heap w' 1%nat)) [0; 1; 2; 3] =
  [S754_finite false 8605184 (-40); S754_finite false 8827352 (-26);
   S754_finite false 12676954 (-24); half] /\
  w_rng w' = 1622650073.
Proof. split; reflexivity. Qed.

Example verify_three_elements :
  aborted (@for_loop lehmer 3 0 (@verify_body lehmer idle_adder) good_world)
  = false.
Proof. reflexivity. Qed.

Example verify_three_elements_mismatch :
  w_stdout
    (final_world
       (@for_loop lehmer 3 0 (@verify_body lehmer idle_adder) mismatch_world)) =
  [LineComputeError 0 Float32.zero Float32.one].
Proof. reflexivity. Qed.

Example threadGroupSize_small :
  threadGroupSize {| pso_function := MkFunction "add_arrays";
                     maxTotalThreadsPerThreadgroup := 1024 |} = 1024.
Proof. reflexivity. Qed.

Example threadGroupSize_large :
  threadGroupSize {| pso_function := MkFunction "add_arrays";
                     maxTotalThreadsPerThreadgroup := 2 ^ 30 |} = 16777216.
Proof. reflexivity. Qed.

Example bandwidth_3ms : bandwidth 3 = bw_3ms.
Proof. reflexivity. Qed.

Example duration_cast_truncates : @duration_cast_ms lehmer (-1999) = -1.
Proof. reflexivity. Qed.

(** Two readings further apart than a 64-bit tick count can tell: the
    difference comes out negative. *)
Example duration_between_wraps :
  duration_between (-9000000000000000000) 9000000000000000000
  = -446744073709551616.
Proof. reflexivity. Qed.

Example duration_between_small : duration_between 1000000 1003000 = 3000.
Proof. reflexivity. Qed.

Example grid_2_by_2 :
  grid_positions (Size_Make 2 2 1) = [(0, 0, 0); (1, 0, 0); (0, 1, 0); (1, 1, 0)].
Proof. reflexivity. Qed.

Example kernel_on_three_threads :
  map (fold_left (add_arrays (fun _ => half) Float32.of_int) (range 0 3)
                 (fun _ => Float32.zero))
      [0; 1; 2; 3] =
  [half; S754_finite false 12582912 (-23); S754_finite false 10485760 (-22);
   Float32.zero].
Proof. reflexivity. Qed.

(** The loops run [arrayLength] times; proofs go through their
    invariants, never through unfolding sixteen million iterations. *)
Opaque arrayLength.

(** ** 64-bit differences *)

Lemma wrap_int64_small (z : Z) :
  - 2 ^ 63 <= z < 2 ^ 63 -> wrap_int64 z = z.
Proof.
  intros Hz. unfold wrap_int64.
  change (2 ^ 64) with 18446744073709551616.
  change (2 ^ 63) with 9223372036854775808 in *.
  rewrite Z.mod_small by lia. lia.
Qed.

Lemma wrap_int64_range (z : Z) : - 2 ^ 63 <= wrap_int64 z < 2 ^ 63.
Proof.
  unfold wrap_int64.
  change (2 ^ 64) with 18446744073709551616.
  change (2 ^ 63) with 9223372036854775808.
  pose proof (Z.mod_pos_bound (z + 9223372036854775808) 18446744073709551616
                ltac:(lia)).
  lia.
Qed.

(** ** The monad and the loop *)

Section MonadFacts.

Context {P : Platform}.

Lemma bind_Ok {A B} (m : M A) (k : A -> M B) w a w' :
  m w = Ok a w' -> bind m k w = k a w'.
Proof. unfold bind. intros ->. reflexivity. Qed.

Lemma newBuffer_Ok device length w :
  newBuffer device length w = Ok (w_next w) (allocate device length w).
Proof. reflexivity. Qed.

Lemma allocate_heap_new device length w :
  w_heap (allocate device length w) (w_next w) =
  {| buf_length := length;
     buf_contents := fresh_contents device (w_next w) |}.
Proof. cbn. rewrite Nat.eqb_refl. reflexivity. Qed.

Lemma allocate_heap_old device length w b :
  b <> w_next w -> w_heap (allocate device length w) b = w_heap w b.
Proof.
  intros Hb. cbn. destruct (Nat.eqb_spec b (w_next w)); [contradiction|].
  reflexivity.
Qed.

Lemma bind_Abort {A B} (m : M A) (k : A -> M B) w w' :
  m w = Abort w' -> bind m k w = Abort w'.
Proof. unfold bind. intros ->. reflexivity. Qed.

Lemma for_loop_S count index body w :
  for_loop (S count) index body w =
  bind (body index) (fun _ => for_loop count (index + 1) body) w.
Proof. reflexivity. Qed.

(** A body that leaves the world alone on every index of the range
    makes the whole loop leave it alone. *)
Lemma for_loop_skip count : forall index body w,
  (forall i, index <= i < index + Z.of_nat count -> body i w = Ok tt w) ->
  for_loop count index body w = Ok tt w.
Proof.
  induction count as [|count IH]; intros index body w Hbody.
  - reflexivity.
  - rewrite for_loop_S.
    rewrite (bind_Ok _ _ w tt w) by (apply Hbody; lia).
    apply IH. intros i Hi. apply Hbody. lia.
Qed.

(** The loop stops at the first index whose body aborts. *)
Lemma for_loop_first_abort count : forall index body w k w',
  index <= k < index + Z.of_nat count ->
  (forall i, index <= i < k -> body i w = Ok tt w) ->
  body k w = Abort w' ->
  for_loop count index body w = Abort w'.
Proof.
  induction count as [|count IH]; intros index body w k w' Hk Hbefore Hat.
  - lia.
  - rewrite for_loop_S.
    destruct (Z.eq_dec index k) as [->|Hne].
    + apply bind_Abort. exact Hat.
    + rewrite (bind_Ok _ _ w tt w) by (apply Hbefore; lia).
      apply (IH _ _ _ k); [lia | | exact Hat].
      intros i Hi. apply Hbefore. lia.
Qed.

End MonadFacts.

(** ** The comparison operators *)

Lemma Pos_compare_cont_Eq_eq (m1 m2 : positive) :
  Pos.compare_cont Eq m1 m2 = Eq -> m1 = m2.
Proof. apply Pos.compare_eq. Qed.

(** [==] on floats: the operands are the same value and not NaN, or
    they are two zeros of either sign. *)
Lemma eq_true_iff (x y : float) :
  Float32.eq x y = true <->
  (x = y /\ Float32.is_nan x = false) \/
  (Float32.is_zero x = true /\ Float32.is_zero y = true).
Proof.
  unfold Float32.eq, SFeqb. split.
  - destruct x as [sx|sx| |sx mx ex], y as [sy|sy| |sy my ey]; cbn;
      try discriminate; try (destruct sx; discriminate);
      try (destruct sy; discriminate).
    + intros _. right. split; reflexivity.
    + destruct sx, sy; try discriminate; intros _; left; split; reflexivity.
    + destruct sx, sy; try discriminate.
      * destruct (Z.compare_spec ex ey) as [->|?|?]; try discriminate.
        intros H. left. split; [|reflexivity].
        destruct (Pos.compare_cont Eq mx my) eqn:E; try discriminate.
        apply Pos_compare_cont_Eq_eq in E. subst. reflexivity.
      * destruct (Z.compare_spec ex ey) as [->|?|?]; try discriminate.
        intros H. left. split; [|reflexivity].
        destruct (Pos.compare_cont Eq mx my) eqn:E; try discriminate.
        apply Pos_compare_cont_Eq_eq in E. subst. reflexivity.
  - intros [[<- Hnan]|[Hx Hy]].
    + destruct x as [sx|sx| |sx mx ex]; cbn in *; try discriminate.
      * reflexivity.
      * destruct sx; reflexivity.
      * rewrite Z.compare_refl.
        change (Pos.compare_cont Eq mx mx) with (Pos.compare mx mx).
        rewrite Pos.compare_refl. destruct sx; reflexivity.
    + destruct x, y; cbn in *; try discriminate. reflexivity.
Qed.

(** ** [verifyResults] *)

Section VerifyFacts.

Context {P : Platform}.

Lemma verify_body_match self w i :
  Float32.eq (Result_at self w i) (sum_at self w i) = true ->
  verify_body self i w = Ok tt w.
Proof.
  intros H. unfold verify_body, bind, load, Float32.ne.
  unfold Result_at, sum_at, A_at, B_at, Float32.eq in H.
  rewrite H. reflexivity.
Qed.

Lemma verify_body_mismatch self w i :
  Float32.eq (Result_at self w i) (sum_at self w i) = false ->
  verify_body self i w =
  Abort (print (LineComputeError i (Result_at self w i) (sum_at self w i)) w).
Proof.
  intros H. unfold verify_body, bind, load, Float32.ne.
  unfold Result_at, sum_at, A_at, B_at, Float32.eq in H.
  rewrite H. cbn. unfold assert, Float32.eq. rewrite H. reflexivity.
Qed.

(** The loop of [verifyResults] over any range: it either finds every
    element equal and leaves the world as it was, or stops at the
    least unequal index having printed that index and both values. *)
Lemma verify_loop_spec self w count : forall index,
  (for_loop count index (verify_body self) w = Ok tt w /\
   forall i, index <= i < index + Z.of_nat count ->
             Float32.eq (Result_at self w i) (sum_at self w i) = true) \/
  (exists j, index <= j < index + Z.of_nat count /\
     Float32.eq (Result_at self w j) (sum_at self w j) = false /\
     (forall i, index <= i < j ->
                Float32.eq (Result_at self w i) (sum_at self w i) = true) /\
     for_loop count index (verify_body self) w =
     Abort (print (LineComputeError j (Result_at self w j) (sum_at self w j)) w)).
Proof.
  induction count as [|count IH]; intros index.
  - left. split; [reflexivity | intros; lia].
  - rewrite for_loop_S.
    destruct (Float32.eq (Result_at self w index) (sum_at self w index)) eqn:E.
    + rewrite (bind_Ok _ _ w tt w) by (apply verify_body_match; exact E).
      destruct (IH (index + 1)) as [[Hok Hall]|(j & Hj & Hne & Hbefore & Hab)].
      * left. split; [exact Hok|].
        intros i Hi. destruct (Z.eq_dec i index) as [->|]; [exact E|].
        apply Hall. lia.
      * right. exists j. repeat split; try lia; try assumption.
        intros i Hi. destruct (Z.eq_dec i index) as [->|]; [exact E|].
        apply Hbefore. lia.
    + right. exists index. repeat split; try lia; try assumption.
      apply bind_Abort. apply verify_body_mismatch. exact E.
Qed.

Lemma verifyResults_all_equal self w :
  (forall i, 0 <= i < arrayLength ->
             Float32.eq (Result_at self w i) (sum_at self w i) = true) ->
  verifyResults self w = Ok tt w.
Proof.
  intros Hall. unfold verifyResults, for_index_below.
  apply for_loop_skip. intros i Hi.
  apply verify_body_match, Hall.
  rewrite Z2Nat.id in Hi by apply arrayLength_nonneg. lia.
Qed.

Lemma verifyResults_spec self w :
  (verifyResults self w = Ok tt w /\
   forall i, 0 <= i < arrayLength ->
             Float32.eq (Result_at self w i) (sum_at self w i) = true) \/
  (exists j, 0 <= j < arrayLength /\
     Float32.eq (Result_at self w j) (sum_at self w j) = false /\
     (forall i, 0 <= i < j ->
                Float32.eq (Result_at self w i) (sum_at self w i) = true) /\
     verifyResults self w =
     Abort (print (LineComputeError j (Result_at self w j) (sum_at self w j)) w)).
Proof.
  unfold verifyResults, for_index_below.
  pose proof (verify_loop_spec self w (Z.to_nat arrayLength) 0) as H.
  rewrite Z2Nat.id in H by apply arrayLength_nonneg.
  exact H.
Qed.

Lemma verifyResults_heap self w :
  w_heap (final_world (verifyResults self w)) = w_heap w.
Proof.
  destruct (verifyResults_spec self w) as [[-> _]|(j & _ & _ & _ & ->)];
    reflexivity.
Qed.

End VerifyFacts.

(** C1 (amended).  [verifyResults] compares [Result[i]] with
    [A[i] + B[i]] for every index [i] below [arrayLength] with the
    operator [==] of IEEE-754 and no tolerance: it returns, leaving the
    world as it was, exactly when every element compares equal, and a
    single unequal element makes it print the least unequal index with
    both values and abort on the assertion.  [==] holds when the two
    operands are the same value and not NaN, or are two zeros of either
    sign; so it is equality of the bit patterns except that [-0 == +0]
    and that NaN is unequal even to itself. *)
Theorem verifyResults_checks_every_index {P : Platform}
    (self : MetalAdder) (w : World) :
  (verifyResults self w = Ok tt w <->
   forall i, 0 <= i < arrayLength ->
             Float32.eq (Result_at self w i) (sum_at self w i) = true) /\
  (forall k, 0 <= k < arrayLength ->
     Float32.eq (Result_at self w k) (sum_at self w k) = false ->
     exists j, 0 <= j <= k /\
       Float32.eq (Result_at self w j) (sum_at self w j) = false /\
       verifyResults self w =
       Abort (print (LineComputeError j (Result_at self w j) (sum_at self w j)) w)) /\
  (forall x y : float,
     Float32.eq x y = true <->
     (x = y /\ Float32.is_nan x = false) \/
     (Float32.is_zero x = true /\ Float32.is_zero y = true)).
Proof.
  split; [|split].
  - split.
    + intros Hok.
      destruct (verifyResults_spec self w) as [[_ Hall]|(j & _ & _ & _ & Hab)].
      * exact Hall.
      * rewrite Hab in Hok. inversion Hok.
    + apply verifyResults_all_equal.
  - intros k Hk Hne.
    destruct (verifyResults_spec self w) as [[_ Hall]|(j & Hj & Hjne & Hbefore & Hab)].
    + rewrite (Hall k Hk) in Hne. discriminate.
    + exists j. repeat split; try lia; try assumption.
      destruct (Z_le_gt_dec j k) as [|Hgt]; [assumption|].
      rewrite (Hbefore k) in Hne by lia. discriminate.
  - apply eq_true_iff.
Qed.

(** C1, as stated, fails: element 0 of Result is [-0] where
    [A[0] + B[0]] is [+0].  The bit patterns differ, and
    [verifyResults] returns without a word. *)
Lemma verifyResults_accepts_negative_zero :
  Float32.bits (Result_at idle_adder signed_zero_world 0) <>
  Float32.bits (sum_at idle_adder signed_zero_world 0) /\
  verifyResults idle_adder signed_zero_world = Ok tt signed_zero_world.
Proof.
  split.
  - vm_compute. discriminate.
  - apply verifyResults_all_equal. intros i _.
    unfold Result_at, sum_at, A_at, B_at. cbn.
    destruct (i =? 0); reflexivity.
Qed.

(** ** [sendComputeCommand] *)

Section SendFacts.

Context {P : Platform}.

(** With both of its assertions passing, [sendComputeCommand] is:
    run the device, read the clock twice, print the two report lines,
    then verify. *)
Lemma sendComputeCommand_unfold self w :
  commandBuffer_ok (_mDevice self) = true ->
  computeCommandEncoder_ok (_mDevice self) = true ->
  sendComputeCommand self w =
  verifyResults self
    (print (LineBandwidth (bandwidth (elapsed_ms w)))
           (print (LineElapsed (elapsed_ms w)) (world_after_wait self w))).
Proof.
  intros Hcb Henc. unfold sendComputeCommand, bind, assert.
  rewrite Hcb, Henc. reflexivity.
Qed.

Lemma verifyResults_first_mismatch self w k :
  0 <= k < arrayLength ->
  (forall i, 0 <= i < k ->
             Float32.eq (Result_at self w i) (sum_at self w i) = true) ->
  Float32.eq (Result_at self w k) (sum_at self w k) = false ->
  verifyResults self w =
  Abort (print (LineComputeError k (Result_at self w k) (sum_at self w k)) w).
Proof.
  intros Hk Hbefore Hne. unfold verifyResults, for_index_below.
  apply (for_loop_first_abort _ _ _ _ k).
  - rewrite Z2Nat.id by apply arrayLength_nonneg. lia.
  - intros i Hi. apply verify_body_match, Hbefore. lia.
  - apply verify_body_mismatch, Hne.
Qed.

Lemma verifyResults_stdout self w :
  exists rest,
    w_stdout (final_world (verifyResults self w)) = w_stdout w ++ rest.
Proof.
  destruct (verifyResults_spec self w) as [[-> _]|(j & _ & _ & _ & ->)].
  - exists []. cbn. symmetry. apply app_nil_r.
  - eexists. reflexivity.
Qed.

End SendFacts.

(** The constant in front of the division by the elapsed time is
    exactly [125], whichever way the powers of [1024] are divided
    out. *)
Lemma bandwidth_numerator (t : Z) :
  bandwidth t = Float32.div (Float32.of_int 125) (Float32.of_int t).
Proof. reflexivity. Qed.

Lemma bandwidth_spec_numerator (t : Z) :
  bandwidth_spec t = Float32.div (Float32.of_int 125) (Float32.of_int t).
Proof. reflexivity. Qed.

(** C2 (amended).  The timing report comes before the verification, not
    after it: once its two assertions have passed, [sendComputeCommand]
    prints the elapsed-time line and the bandwidth line and only then
    runs [verifyResults], on the world that already holds both lines.
    A mismatching element therefore aborts the run after the two lines
    were printed; the error line follows them and nothing follows the
    error line. *)
Theorem timing_report_precedes_verification {P : Platform}
    (self : MetalAdder) (w : World)
    (Hcb : commandBuffer_ok (_mDevice self) = true)
    (Henc : computeCommandEncoder_ok (_mDevice self) = true) :
  let t := elapsed_ms w in
  let reported :=
    print (LineBandwidth (bandwidth t))
          (print (LineElapsed t) (world_after_wait self w)) in
  sendComputeCommand self w = verifyResults self reported /\
  w_stdout reported = w_stdout w ++ [LineElapsed t; LineBandwidth (bandwidth t)] /\
  (forall k, 0 <= k < arrayLength ->
     Float32.eq (Result_at self reported k) (sum_at self reported k) = false ->
     exists j w',
       sendComputeCommand self w = Abort w' /\
       w_stdout w' =
       w_stdout w ++
         [LineElapsed t; LineBandwidth (bandwidth t);
          LineComputeError j (Result_at self reported j) (sum_at self reported j)]).
Proof.
  intros t reported.
  assert (Hout : w_stdout reported =
                 w_stdout w ++ [LineElapsed t; LineBandwidth (bandwidth t)]).
  { unfold reported. cbn. rewrite <- app_assoc. reflexivity. }
  split; [|split].
  - apply sendComputeCommand_unfold; assumption.
  - exact Hout.
  - intros k Hk Hne.
    destruct (verifyResults_spec self reported)
      as [[_ Hall]|(j & Hj & Hjne & Hbefore & Hab)].
    + rewrite (Hall k Hk) in Hne. discriminate.
    + exists j. eexists. split.
      * rewrite (sendComputeCommand_unfold self w Hcb Henc). exact Hab.
      * cbn [w_stdout print]. fold reported. rewrite Hout.
        rewrite <- app_assoc. reflexivity.
Qed.

Lemma timing_report_precedes_verification_witness :
  commandBuffer_ok (_mDevice idle_adder) = true /\
  computeCommandEncoder_ok (_mDevice idle_adder) = true /\
  sendComputeCommand idle_adder mismatch_world =
  verifyResults idle_adder
    (print (LineBandwidth (bandwidth (elapsed_ms mismatch_world)))
           (print (LineElapsed (elapsed_ms mismatch_world))
                  (world_after_wait idle_adder mismatch_world))).
Proof.
  split; [reflexivity|]. split; [reflexivity|].
  apply (timing_report_precedes_verification
           idle_adder mismatch_world eq_refl eq_refl).
Defined.

(** C2, as stated, fails: with element 0 of Result wrong the run
    aborts, and by then both lines of the timing report are on standard
    output, ahead of the error line. *)
Lemma timing_lines_printed_before_abort :
  aborted (sendComputeCommand idle_adder mismatch_world) = true /\
  w_stdout (final_world (sendComputeCommand idle_adder mismatch_world)) =
  [LineElapsed 3; LineBandwidth bw_3ms;
   LineComputeError 0 Float32.zero Float32.one].
Proof.
  rewrite (sendComputeCommand_unfold idle_adder mismatch_world eq_refl eq_refl).
  rewrite (verifyResults_first_mismatch _ _ 0).
  - split; reflexivity.
  - rewrite arrayLength_value. lia.
  - intros i Hi. lia.
  - reflexivity.
Qed.

(** C10.  Nothing guards the division: when the measured time is 0 ms
    the bandwidth is [125.0f / 0.0f], which is [+infinity]; the program
    prints the bandwidth line with that value and goes on to
    [verifyResults]. *)
Theorem zero_elapsed_prints_infinite_bandwidth {P : Platform}
    (self : MetalAdder) (w : World)
    (Hcb : commandBuffer_ok (_mDevice self) = true)
    (Henc : computeCommandEncoder_ok (_mDevice self) = true)
    (Hzero : elapsed_ms w = 0) :
  bandwidth 0 = Float32.div (Float32.of_int 125) Float32.zero /\
  Float32.lt Float32.zero (Float32.of_int 125) = true /\
  bandwidth 0 = Float32.infinity /\
  sendComputeCommand self w =
  verifyResults self
    (print (LineBandwidth Float32.infinity)
           (print (LineElapsed 0) (world_after_wait self w))).
Proof.
  split; [reflexivity|]. split; [reflexivity|]. split; [reflexivity|].
  rewrite (sendComputeCommand_unfold self w Hcb Henc), Hzero. reflexivity.
Qed.

Lemma zero_elapsed_prints_infinite_bandwidth_witness :
  commandBuffer_ok (_mDevice idle_adder) = true /\
  computeCommandEncoder_ok (_mDevice idle_adder) = true /\
  elapsed_ms same_ms_world = 0 /\
  sendComputeCommand idle_adder same_ms_world =
  verifyResults idle_adder
    (print (LineBandwidth Float32.infinity)
           (print (LineElapsed 0) (world_after_wait idle_adder same_ms_world))).
Proof.
  split; [reflexivity|]. split; [reflexivity|]. split; [reflexivity|].
  apply (zero_elapsed_prints_infinite_bandwidth
           idle_adder same_ms_world eq_refl eq_refl eq_refl).
Defined.

(** C7 (amended).  Once its two assertions have passed,
    [sendComputeCommand] prints the elapsed time [t] in whole
    milliseconds and then the bandwidth; the bandwidth is
    [2000 × bufferSize / 1024³ / t] computed in single precision, which
    is [125.0f / (float)t]; and the elapsed time is at least 0 when the
    second reading of the clock is not earlier than the first and the
    two are less than [2^63] ticks apart, so that their 64-bit
    difference does not wrap.  (The clock is [system_clock], which can
    be set back; nothing in the code excludes a negative time.) *)
Theorem reported_time_and_bandwidth {P : Platform}
    (self : MetalAdder) (w : World)
    (Hcb : commandBuffer_ok (_mDevice self) = true)
    (Henc : computeCommandEncoder_ok (_mDevice self) = true) :
  let t := elapsed_ms w in
  (exists rest,
     w_stdout (final_world (sendComputeCommand self w)) =
     w_stdout w ++ LineElapsed t :: LineBandwidth (bandwidth t) :: rest) /\
  (forall t', t' <> 0 ->
     bandwidth t' = bandwidth_spec t' /\
     bandwidth t' = Float32.div (Float32.of_int 125) (Float32.of_int t')) /\
  (0 < ticks_per_ms ->
   w_clock w (w_reads w) <= w_clock w (S (w_reads w)) ->
   w_clock w (S (w_reads w)) - w_clock w (w_reads w) < 2 ^ 63 ->
   0 <= t).
Proof.
  intros t. split; [|split].
  - rewrite (sendComputeCommand_unfold self w Hcb Henc).
    destruct (verifyResults_stdout self
                (print (LineBandwidth (bandwidth (elapsed_ms w)))
                   (print (LineElapsed (elapsed_ms w)) (world_after_wait self w))))
      as [rest Hrest].
    exists rest. rewrite Hrest. cbn. fold t.
    rewrite <- !app_assoc. reflexivity.
  - intros t' _. split; reflexivity.
  - intros Hticks Hmono Hfits.
    unfold t, elapsed_ms, duration_cast_ms, duration_between.
    rewrite wrap_int64_small by lia.
    apply Z.quot_pos; lia.
Qed.

Lemma reported_time_and_bandwidth_witness :
  commandBuffer_ok (_mDevice idle_adder) = true /\
  computeCommandEncoder_ok (_mDevice idle_adder) = true /\
  (exists rest,
     w_stdout (final_world (sendComputeCommand idle_adder good_world)) =
     w_stdout good_world ++
       LineElapsed (elapsed_ms good_world) ::
       LineBandwidth (bandwidth (elapsed_ms good_world)) :: rest) /\
  0 <= elapsed_ms good_world.
Proof.
  split; [reflexivity|]. split; [reflexivity|].
  destruct (reported_time_and_bandwidth idle_adder good_world eq_refl eq_refl)
    as (Hout & _ & Hpos).
  split; [exact Hout|].
  apply Hpos; [reflexivity | cbn; lia | cbn; lia].
Defined.

(** C7, as stated, fails in its last part: the clock was set back five
    seconds between the two readings, and the program reports
    [-5000 ms]. *)
Lemma negative_elapsed_time_reported :
  elapsed_ms stepped_back_world = -5000 /\
  w_stdout (final_world (sendComputeCommand idle_adder stepped_back_world)) =
  [LineElapsed (-5000);
   LineBandwidth (Float32.div (Float32.of_int 125) (Float32.of_int (-5000)))].
Proof.
  split; [reflexivity|].
  rewrite (sendComputeCommand_unfold idle_adder stepped_back_world
             eq_refl eq_refl).
  rewrite verifyResults_all_equal.
  - reflexivity.
  - intros i _. unfold Result_at, sum_at, A_at, B_at. cbn.
    destruct (i =? 0); reflexivity.
Qed.

(** ** [encodeAddCommand] *)

(** C5.  Whatever the pipeline state reports as
    [maxTotalThreadsPerThreadgroup], the thread-group size that
    [encodeAddCommand] hands to [dispatchThreads] is at most the
    minimum of that value and [arrayLength]; it is that minimum. *)
Theorem threadgroup_size_bounded
    (self : MetalAdder) (enc : ComputeCommandEncoder) :
  let pso := _mAddFunctionPSO self in
  threadGroupSize pso <= Z.min (maxTotalThreadsPerThreadgroup pso) arrayLength /\
  threadGroupSize pso = Z.min (maxTotalThreadsPerThreadgroup pso) arrayLength /\
  enc_dispatches (encodeAddCommand self enc) =
  enc_dispatches enc ++
    [(Size_Make arrayLength 1 1, Size_Make (threadGroupSize pso) 1 1)].
Proof.
  intros pso.
  assert (H : threadGroupSize pso =
              Z.min (maxTotalThreadsPerThreadgroup pso) arrayLength).
  { unfold threadGroupSize.
    destruct (Z.gtb_spec (maxTotalThreadsPerThreadgroup pso) arrayLength); lia. }
  split; [lia|]. split; [exact H|]. reflexivity.
Qed.

(** ** [generateRandomFloatData] and [prepareData] *)

Section GenerateFacts.

Context {P : Platform}.

(** What the filling loop does over any range: it returns; element
    [i] of the range holds the quotient made from the [(i - index)]-th
    value of [rand()]; the generator has advanced by [count] calls;
    nothing else has changed. *)
Lemma generate_loop_spec buffer count : forall index w,
  exists w',
    for_loop count index (generate_body buffer) w = Ok tt w' /\
    w_rng w' = rand_advance (w_rng w) count /\
    w_next w' = w_next w /\
    w_stdout w' = w_stdout w /\
    w_clock w' = w_clock w /\
    w_reads w' = w_reads w /\
    (forall b, buf_length (w_heap w' b) = buf_length (w_heap w b)) /\
    (forall b i, b <> buffer ->
       buf_contents (w_heap w' b) i = buf_contents (w_heap w b) i) /\
    (forall i, index <= i < index + Z.of_nat count ->
       buf_contents (w_heap w' buffer) i =
       random_float (rand_nth (w_rng w) (Z.to_nat (i - index)))) /\
    (forall i, ~ index <= i < index + Z.of_nat count ->
       buf_contents (w_heap w' buffer) i = buf_contents (w_heap w buffer) i).
Proof.
  induction count as [|count IH]; intros index w.
  - exists w. cbn. repeat split; try reflexivity. intros i Hi. lia.
  - rewrite for_loop_S.
    set (w1 := final_world (generate_body buffer index w)).
    assert (Hstep : generate_body buffer index w = Ok tt w1) by reflexivity.
    rewrite (bind_Ok _ _ w tt w1 Hstep).
    destruct (IH (index + 1) w1)
      as (w' & Hrun & Hrng & Hnext & Hout & Hclock & Hreads &
          Hlen & Hother & Hin & Hout_range).
    exists w'. split; [exact Hrun|].
    split; [rewrite Hrng; reflexivity|].
    split; [rewrite Hnext; reflexivity|].
    split; [rewrite Hout; reflexivity|].
    split; [rewrite Hclock; reflexivity|].
    split; [rewrite Hreads; reflexivity|].
    split; [|split; [|split]].
    + intros b. rewrite Hlen. unfold w1. cbn. unfold heap_store.
      destruct (Nat.eqb_spec b buffer) as [->|]; reflexivity.
    + intros b i Hb. rewrite (Hother b i Hb). unfold w1. cbn.
      unfold heap_store.
      destruct (Nat.eqb_spec b buffer) as [->|]; [contradiction|reflexivity].
    + intros i Hi. destruct (Z.eq_dec i index) as [->|Hne].
      * rewrite Hout_range by lia. unfold w1. cbn. unfold heap_store.
        rewrite Nat.eqb_refl. cbn. rewrite Z.eqb_refl.
        rewrite Z.sub_diag. reflexivity.
      * rewrite Hin by lia.
        replace (Z.to_nat (i - index)) with (S (Z.to_nat (i - (index + 1))))
          by lia.
        reflexivity.
    + intros i Hi. rewrite Hout_range by lia. unfold w1. cbn.
      unfold heap_store. rewrite Nat.eqb_refl. cbn.
      destruct (Z.eqb_spec i index); [lia|reflexivity].
Qed.

Lemma generateRandomFloatData_spec buffer w :
  exists w',
    generateRandomFloatData buffer w = Ok tt w' /\
    w_rng w' = rand_advance (w_rng w) (Z.to_nat arrayLength) /\
    w_next w' = w_next w /\
    w_stdout w' = w_stdout w /\
    w_clock w' = w_clock w /\
    w_reads w' = w_reads w /\
    (forall b, buf_length (w_heap w' b) = buf_length (w_heap w b)) /\
    (forall b i, b <> buffer ->
       buf_contents (w_heap w' b) i = buf_contents (w_heap w b) i) /\
    (forall i, 0 <= i < arrayLength ->
       buf_contents (w_heap w' buffer) i =
       random_float (rand_nth (w_rng w) (Z.to_nat i))) /\
    (forall i, ~ 0 <= i < arrayLength ->
       buf_contents (w_heap w' buffer) i = buf_contents (w_heap w buffer) i).
Proof.
  unfold generateRandomFloatData, for_index_below.
  destruct (generate_loop_spec buffer (Z.to_nat arrayLength) 0 w)
    as (w' & Hrun & Hrng & Hnext & Hout & Hclock & Hreads &
        Hlen & Hother & Hin & Hout_range).
  rewrite Z2Nat.id in Hin, Hout_range by apply arrayLength_nonneg.
  exists w'. repeat (split; [assumption|]). split.
  - intros i Hi. rewrite (Hin i) by lia. rewrite Z.sub_0_r. reflexivity.
  - intros i Hi. apply Hout_range. lia.
Qed.

End GenerateFacts.

Section PrepareFacts.

Context {P : Platform}.

(** [prepareData] returns; the three buffers are new, distinct, each
    [bufferSize] bytes long; A holds the quotients made from the
    first [arrayLength] values of [rand()] and B those made from the
    next [arrayLength]; Result holds what the device put in a fresh
    buffer; nothing was printed and the clock was not read. *)
Lemma prepareData_spec self w :
  exists self' w',
    prepareData self w = Ok self' w' /\
    _mDevice self' = _mDevice self /\
    _mAddFunctionPSO self' = _mAddFunctionPSO self /\
    _mBufferA self' = w_next w /\
    _mBufferB self' = S (w_next w) /\
    _mBufferResult self' = S (S (w_next w)) /\
    w_next w' = S (S (S (w_next w))) /\
    w_stdout w' = w_stdout w /\
    w_clock w' = w_clock w /\
    w_reads w' = w_reads w /\
    buf_length (w_heap w' (_mBufferA self')) = bufferSize /\
    buf_length (w_heap w' (_mBufferB self')) = bufferSize /\
    buf_length (w_heap w' (_mBufferResult self')) = bufferSize /\
    (forall i, 0 <= i < arrayLength ->
       A_at self' w' i = random_float (rand_nth (w_rng w) (Z.to_nat i))) /\
    (forall i, 0 <= i < arrayLength ->
       B_at self' w' i =
       random_float
         (rand_nth (rand_advance (w_rng w) (Z.to_nat arrayLength))
                   (Z.to_nat i))) /\
    (forall i, Result_at self' w' i =
               fresh_contents (_mDevice self) (S (S (w_next w))) i).
Proof.
  unfold prepareData.
  set (a := w_next w). set (b := S a). set (r := S (S a)).
  set (w1 := allocate (_mDevice self) bufferSize w).
  set (w2 := allocate (_mDevice self) bufferSize w1).
  set (w3 := allocate (_mDevice self) bufferSize w2).
  destruct (generateRandomFloatData_spec a w3)
    as (w4 & Hrun4 & Hrng4 & Hnext4 & Hout4 & Hclock4 & Hreads4 &
        Hlen4 & Hother4 & Hin4 & _).
  destruct (generateRandomFloatData_spec b w4)
    as (w5 & Hrun5 & Hrng5 & Hnext5 & Hout5 & Hclock5 & Hreads5 &
        Hlen5 & Hother5 & Hin5 & _).
  exists {| _mDevice := _mDevice self;
            _mAddFunctionPSO := _mAddFunctionPSO self;
            _mCommandQueue := _mCommandQueue self;
            _mBufferA := a; _mBufferB := b; _mBufferResult := r |}.
  exists w5. split.
  { eapply eq_trans; [apply (bind_Ok _ _ w a w1 (newBuffer_Ok _ _ w))|].
    eapply eq_trans; [apply (bind_Ok _ _ w1 b w2 (newBuffer_Ok _ _ w1))|].
    eapply eq_trans; [apply (bind_Ok _ _ w2 r w3 (newBuffer_Ok _ _ w2))|].
    eapply eq_trans; [apply (bind_Ok _ _ w3 tt w4 Hrun4)|].
    eapply eq_trans; [apply (bind_Ok _ _ w4 tt w5 Hrun5)|].
    reflexivity. }
  clear Hrun4 Hrun5.
  cbn [_mDevice _mAddFunctionPSO _mBufferA _mBufferB _mBufferResult].
  assert (Hab : a <> b) by (unfold b; lia).
  assert (Har : a <> r) by (unfold r; lia).
  assert (Hbr : b <> r) by (unfold r, b; lia).
  assert (Hn1 : w_next w1 = b) by reflexivity.
  assert (Hn2 : w_next w2 = r) by reflexivity.
  assert (Hn3 : w_next w3 = S r) by reflexivity.
  assert (Hrng3 : w_rng w3 = w_rng w) by reflexivity.
  assert (Hout3 : w_stdout w3 = w_stdout w) by reflexivity.
  assert (Hclock3 : w_clock w3 = w_clock w) by reflexivity.
  assert (Hreads3 : w_reads w3 = w_reads w) by reflexivity.
  assert (Ha3 : w_heap w3 a =
                {| buf_length := bufferSize;
                   buf_contents := fresh_contents (_mDevice self) a |}).
  { unfold w3. rewrite allocate_heap_old by (rewrite Hn2; exact Har).
    unfold w2. rewrite allocate_heap_old by (rewrite Hn1; exact Hab).
    unfold w1. apply allocate_heap_new. }
  assert (Hb3 : w_heap w3 b =
                {| buf_length := bufferSize;
                   buf_contents := fresh_contents (_mDevice self) b |}).
  { unfold w3. rewrite allocate_heap_old by (rewrite Hn2; exact Hbr).
    unfold w2. rewrite <- Hn1. apply allocate_heap_new. }
  assert (Hr3 : w_heap w3 r =
                {| buf_length := bufferSize;
                   buf_contents := fresh_contents (_mDevice self) r |}).
  { unfold w3. rewrite <- Hn2. apply allocate_heap_new. }
  clearbody w3. clear w1 w2 Hn1 Hn2.
  repeat (split; [reflexivity|]).
  split; [rewrite Hnext5, Hnext4, Hn3; reflexivity|].
  split; [rewrite Hout5, Hout4, Hout3; reflexivity|].
  split; [rewrite Hclock5, Hclock4, Hclock3; reflexivity|].
  split; [rewrite Hreads5, Hreads4, Hreads3; reflexivity|].
  split; [rewrite Hlen5, Hlen4, Ha3; reflexivity|].
  split; [rewrite Hlen5, Hlen4, Hb3; reflexivity|].
  split; [rewrite Hlen5, Hlen4, Hr3; reflexivity|].
  split.
  { intros i Hi. unfold A_at. cbn [_mBufferA].
    rewrite Hother5 by exact Hab. rewrite Hin4 by exact Hi.
    rewrite Hrng3. reflexivity. }
  split.
  { intros i Hi. unfold B_at. cbn [_mBufferB].
    rewrite Hin5 by exact Hi. rewrite Hrng4, Hrng3. reflexivity. }
  intros i. unfold Result_at. cbn [_mBufferResult].
  rewrite Hother5 by (intro; apply Hbr; congruence).
  rewrite Hother4 by (intro; apply Har; congruence).
  rewrite Hr3. reflexivity.
Qed.

End PrepareFacts.

(** ** Rounding in single precision *)

(** [SpecFloat] comes without lemmas; what the proofs about
    [(float)rand() / (float)(RAND_MAX)] need is proved here, on the
    definitions themselves. *)

(** A positive number of [d] binary digits lies between [2^(d-1)] and
    [2^d], and [d] is the only such number. *)

Lemma digits2_pos_bounds (p : positive) :
  2 ^ (Zpos (digits2_pos p) - 1) <= Zpos p < 2 ^ Zpos (digits2_pos p).
Proof.
  induction p as [p IH|p IH|]; cbn [digits2_pos].
  - rewrite Pos2Z.inj_succ.
    replace (Z.succ (Zpos (digits2_pos p)) - 1) with (Zpos (digits2_pos p)) by lia.
    rewrite Z.pow_succ_r by lia.
    assert (H : 2 ^ Zpos (digits2_pos p) = 2 * 2 ^ (Zpos (digits2_pos p) - 1)).
    { rewrite <- Z.pow_succ_r by lia. f_equal. lia. }
    lia.
  - rewrite Pos2Z.inj_succ.
    replace (Z.succ (Zpos (digits2_pos p)) - 1) with (Zpos (digits2_pos p)) by lia.
    rewrite Z.pow_succ_r by lia.
    assert (H : 2 ^ Zpos (digits2_pos p) = 2 * 2 ^ (Zpos (digits2_pos p) - 1)).
    { rewrite <- Z.pow_succ_r by lia. f_equal. lia. }
    lia.
  - cbn. lia.
Qed.

Lemma digits2_pos_unique (p : positive) (k : Z) :
  2 ^ (k - 1) <= Zpos p < 2 ^ k -> Zpos (digits2_pos p) = k.
Proof.
  intros [Hlo Hhi].
  pose proof (digits2_pos_bounds p) as [Dlo Dhi].
  set (d := Zpos (digits2_pos p)) in *.
  assert (0 < d) by (unfold d; lia).
  assert (Hk : 0 < k).
  { destruct (Z_lt_le_dec 0 k); [assumption|].
    exfalso. assert (2 ^ k <= 1).
    { destruct (Z.eq_dec k 0) as [->|]; [cbn; lia|].
      rewrite Z.pow_neg_r by lia. lia. }
    lia. }
  destruct (Z.lt_trichotomy d k) as [Hlt|[Heq|Hgt]]; [|assumption|].
  - exfalso. assert (2 ^ d <= 2 ^ (k - 1)) by (apply Z.pow_le_mono_r; lia). lia.
  - exfalso. assert (2 ^ k <= 2 ^ (d - 1)) by (apply Z.pow_le_mono_r; lia). lia.
Qed.

(** One shift to the right of a non-negative mantissa: halve it, keep
    the bit shifted out as the round bit, fold the old round bit into
    the sticky bit. *)
Lemma shr_1_nonneg m r s : 0 <= m ->
  shr_1 {| shr_m := m; shr_r := r; shr_s := s |} =
  {| shr_m := m / 2; shr_r := Z.odd m; shr_s := r || s |}.
Proof.
  intros Hm. destruct m as [|p|p]; [reflexivity| |lia].
  destruct p as [p|p|]; cbn [shr_1].
  - f_equal. rewrite Pos2Z.inj_xI. symmetry.
    replace (2 * Zpos p + 1) with (1 + Zpos p * 2) by lia.
    rewrite Z.div_add by lia. reflexivity.
  - f_equal. rewrite Pos2Z.inj_xO. symmetry.
    replace (2 * Zpos p) with (Zpos p * 2) by lia. apply Z.div_mul. lia.
  - reflexivity.
Qed.

(** [SpecFloat]'s iterator is plain iteration. *)
Lemma iter_pos_nat {A} (f : A -> A) (p : positive) : forall x,
  iter_pos f p x = Nat.iter (Pos.to_nat p) f x.
Proof.
  induction p as [p IH|p IH|]; intros x; cbn [iter_pos].
  - rewrite !IH. rewrite Pos2Nat.inj_xI.
    rewrite <- Nat.iter_add.
    replace (S (2 * Pos.to_nat p)) with (Pos.to_nat p + Pos.to_nat p + 1)%nat by lia.
    rewrite (Nat.iter_add _ 1). reflexivity.
  - rewrite !IH. rewrite Pos2Nat.inj_xO.
    rewrite <- Nat.iter_add. f_equal. lia.
  - reflexivity.
Qed.

(** After [k] shifts of [z]: the mantissa is the quotient by [2^k],
    the round bit is the top bit of the remainder, and the sticky bit
    tells whether the rest of the remainder is non-zero. *)
Lemma shr_iter_inv (z : Z) (Hz : 0 <= z) (k : nat) :
  let mrs := Float32.shr_n z k in
  0 <= shr_m mrs /\
  exists low,
    0 <= low /\
    z = shr_m mrs * 2 ^ Z.of_nat k +
        (if shr_r mrs then 2 ^ (Z.of_nat k - 1) else 0) + low /\
    shr_s mrs = negb (low =? 0) /\
    match k with
    | O => low = 0 /\ shr_r mrs = false
    | S _ => low < 2 ^ (Z.of_nat k - 1)
    end.
Proof.
  induction k as [|k IH].
  - cbn. split; [lia|]. exists 0. repeat split; lia.
  - cbv zeta in *. unfold Float32.shr_n in *. rewrite Nat.iter_succ.
    destruct IH as (Hm & low & Hlow & Hz' & Hs & Hk).
    destruct (Nat.iter k shr_1 _) as [m r s]. cbn [shr_m shr_r shr_s] in *.
    rewrite shr_1_nonneg by assumption. cbn [shr_m shr_r shr_s].
    split; [apply Z.div_pos; lia|].
    exists ((if r then 2 ^ (Z.of_nat k - 1) else 0) + low).
    replace (Z.of_nat (S k) - 1) with (Z.of_nat k) by lia.
    rewrite Nat2Z.inj_succ, Z.pow_succ_r by lia.
    pose proof (Z.div_mod m 2 ltac:(lia)) as Hdm.
    pose proof (Z.mod_pos_bound m 2 ltac:(lia)) as Hmb.
    assert (Hodd : Z.odd m = true -> m mod 2 = 1).
    { intros Ho. rewrite Zmod_odd, Ho. reflexivity. }
    assert (Heven : Z.odd m = false -> m mod 2 = 0).
    { intros Ho. rewrite Zmod_odd, Ho. reflexivity. }
    assert (Hpow : 0 < 2 ^ Z.of_nat k) by (apply Z.pow_pos_nonneg; lia).
    destruct k as [|k].
    + destruct Hk as [-> ->]. cbn [Z.of_nat] in *.
      change (2 ^ 0) with 1 in *. change (2 ^ (0 - 1)) with 0.
      repeat split; try lia.
      * destruct (Z.odd m) eqn:Ho; [specialize (Hodd eq_refl)|specialize (Heven eq_refl)]; lia.
      * rewrite Hs. reflexivity.
    + assert (Hp2 : 2 ^ Z.of_nat (S k) = 2 * 2 ^ (Z.of_nat (S k) - 1)).
      { rewrite <- Z.pow_succ_r by lia. f_equal. lia. }
      assert (Hpow' : 0 < 2 ^ (Z.of_nat (S k) - 1)) by (apply Z.pow_pos_nonneg; lia).
      repeat split.
      * destruct r; lia.
      * destruct (Z.odd m) eqn:Ho; [specialize (Hodd eq_refl)|specialize (Heven eq_refl)];
          destruct r; nia.
      * rewrite Hs. destruct r; cbn [orb].
        -- symmetry. apply negb_true_iff. apply Z.eqb_neq. lia.
        -- reflexivity.
      * destruct r; lia.
Qed.

(** Rounding to nearest, ties to even, read off the remainder. *)
Lemma shift_round_spec (z : Z) (Hz : 0 <= z) (k : nat) :
  exists q rem,
    z = q * 2 ^ Z.of_nat k + rem /\ 0 <= rem < 2 ^ Z.of_nat k /\ 0 <= q /\
    (2 * rem < 2 ^ Z.of_nat k -> Float32.shift_round z k = q) /\
    (2 * rem > 2 ^ Z.of_nat k -> Float32.shift_round z k = q + 1) /\
    (2 * rem = 2 ^ Z.of_nat k ->
     Float32.shift_round z k = if Z.even q then q else q + 1).
Proof.
  destruct (shr_iter_inv z Hz k) as (Hm & low & Hlow & Hz' & Hs & Hk).
  unfold Float32.shift_round. cbv zeta in *.
  destruct (Float32.shr_n z k) as [m r s]. cbn [shr_m shr_r shr_s] in *.
  exists m, ((if r then 2 ^ (Z.of_nat k - 1) else 0) + low).
  assert (Hpow : 0 < 2 ^ Z.of_nat k) by (apply Z.pow_pos_nonneg; lia).
  destruct k as [|k].
  - destruct Hk as [-> ->]. change (2 ^ Z.of_nat 0) with 1 in *.
    rewrite Z.eqb_refl in Hs. cbn in Hs. subst s. cbn.
    repeat split; try lia.
  - assert (Hp2 : 2 ^ Z.of_nat (S k) = 2 * 2 ^ (Z.of_nat (S k) - 1)).
    { rewrite <- Z.pow_succ_r by lia. f_equal. lia. }
    assert (Hpow' : 0 < 2 ^ (Z.of_nat (S k) - 1)) by (apply Z.pow_pos_nonneg; lia).
    destruct r, s; cbn [loc_of_shr_record round_nearest_even];
      symmetry in Hs;
      try (apply negb_true_iff, Z.eqb_neq in Hs);
      try (apply negb_false_iff, Z.eqb_eq in Hs);
      repeat split; try lia.
Qed.

(** Rounding is monotone. *)
Lemma shift_round_mono (z1 z2 : Z) (k : nat) :
  0 <= z1 <= z2 -> Float32.shift_round z1 k <= Float32.shift_round z2 k.
Proof.
  intros [H1 H12].
  destruct (shift_round_spec z1 H1 k) as (q1 & r1 & E1 & B1 & Q1 & L1 & G1 & T1).
  destruct (shift_round_spec z2 ltac:(lia) k) as (q2 & r2 & E2 & B2 & Q2 & L2 & G2 & T2).
  set (p := 2 ^ Z.of_nat k) in *.
  assert (Hq : q1 <= q2) by nia.
  assert (S1 : q1 <= Float32.shift_round z1 k <= q1 + 1).
  { destruct (Z.lt_trichotomy (2 * r1) p) as [H|[H|H]].
    - rewrite L1 by lia. lia.
    - rewrite T1 by lia. destruct (Z.even q1); lia.
    - rewrite G1 by lia. lia. }
  assert (S2 : q2 <= Float32.shift_round z2 k <= q2 + 1).
  { destruct (Z.lt_trichotomy (2 * r2) p) as [H|[H|H]].
    - rewrite L2 by lia. lia.
    - rewrite T2 by lia. destruct (Z.even q2); lia.
    - rewrite G2 by lia. lia. }
  destruct (Z.eq_dec q1 q2) as [Heq|Hne]; [|lia].
  subst q2. assert (Hr : r1 <= r2) by lia.
  destruct (Z.lt_trichotomy (2 * r1) p) as [H|[H|H]].
  - rewrite L1 by lia. lia.
  - rewrite T1 by lia.
    destruct (Z.lt_trichotomy (2 * r2) p) as [H'|[H'|H']]; try lia.
  - rewrite G1 by lia. rewrite G2 by lia. lia.
Qed.

Lemma shift_round_bounds (z : Z) (k : nat) :
  0 <= z -> z / 2 ^ Z.of_nat k <= Float32.shift_round z k <= z / 2 ^ Z.of_nat k + 1.
Proof.
  intros Hz.
  destruct (shift_round_spec z Hz k) as (q & r & E & B & Q & L & G & T).
  set (p := 2 ^ Z.of_nat k) in *.
  assert (Hq : z / p = q).
  { symmetry. apply (Z.div_unique z p q r); [left; lia | lia]. }
  rewrite Hq.
  destruct (Z.lt_trichotomy (2 * r) p) as [H|[H|H]].
  - rewrite L by lia. lia.
  - rewrite T by lia. destruct (Z.even q); lia.
  - rewrite G by lia. lia.
Qed.


(** In the normal range the exponent of a number of [d + e] digits is
    24 below, and [shr_fexp] shifts by [d - 24]. *)
Lemma fexp_normal (e : Z) : -125 <= e -> fexp 24 128 e = e - 24.
Proof. intros H. unfold fexp, emin. lia. Qed.

Lemma shr_fexp_normal (m e : Z) (l : location) (d : Z) :
  Zdigits2 m = d -> 24 <= d -> -125 <= d + e ->
  shr_fexp 24 128 m e l =
  (Nat.iter (Z.to_nat (d - 24)) shr_1 (shr_record_of_loc m l), e + (d - 24)).
Proof.
  intros Hd Hd24 He. unfold shr_fexp. rewrite Hd, fexp_normal by lia.
  replace (d + e - 24 - e) with (d - 24) by lia.
  unfold shr. destruct (d - 24) as [|p|p] eqn:E; try lia.
  - cbn. f_equal. lia.
  - rewrite iter_pos_nat. reflexivity.
Qed.

Lemma Zdigits2_range (m d : Z) :
  0 < m -> 2 ^ (d - 1) <= m < 2 ^ d -> Zdigits2 m = d.
Proof.
  intros Hm Hr. destruct m as [|p|p]; try lia.
  cbn [Zdigits2]. apply digits2_pos_unique. exact Hr.
Qed.

(** The second half of [binary_round_aux]: a rounded mantissa of 24
    digits stays, and [2^24] is renormalised. *)
Lemma binary_round_aux_normal (sx : bool) (mx ex : Z) (lx : location) (d : Z) :
  Zdigits2 mx = d -> 24 <= d -> -125 <= d + ex -> ex + (d - 24) <= 103 ->
  let mrs := Nat.iter (Z.to_nat (d - 24)) shr_1 (shr_record_of_loc mx lx) in
  let m1 := round_nearest_even (shr_m mrs) (loc_of_shr_record mrs) in
  2 ^ 23 <= m1 <= 2 ^ 24 ->
  binary_round_aux 24 128 sx mx ex lx =
  if m1 <? 2 ^ 24 then S754_finite sx (Z.to_pos m1) (ex + (d - 24))
  else S754_finite sx (Z.to_pos (2 ^ 23)) (ex + (d - 24) + 1).
Proof.
  intros Hd Hd24 He Hemax mrs m1 Hm1.
  unfold binary_round_aux.
  rewrite (shr_fexp_normal mx ex lx d Hd Hd24 He).
  fold mrs. fold m1.
  destruct (Z.ltb_spec m1 (2 ^ 24)) as [Hlt|Hge].
  - rewrite (shr_fexp_normal m1 _ loc_Exact 24); try lia.
    + change (24 - 24) with 0. change (Z.to_nat 0) with 0%nat.
      rewrite Z.add_0_r. cbn [Nat.iter nat_rect shr_record_of_loc shr_m].
      destruct m1 as [|p|p]; try lia.
      destruct (Z.leb_spec (ex + (d - 24)) (128 - 24)); [reflexivity|lia].
    + apply Zdigits2_range; lia.
  - assert (Hm : m1 = 2 ^ 24) by lia. rewrite Hm.
    rewrite (shr_fexp_normal (2 ^ 24) _ loc_Exact 25); try lia.
    + change (25 - 24) with 1. change (Z.to_nat 1) with 1%nat.
      cbn [Nat.iter nat_rect shr_record_of_loc].
      change (2 ^ 24) with 16777216.
      cbn [shr_1 shr_m]. change (2 ^ 23) with 8388608. cbn [Z.to_pos].
      destruct (Z.leb_spec (ex + (d - 24) + 1) (128 - 24)); [reflexivity|lia].
    + reflexivity.
Qed.

Lemma Pos_iter_xO (p k : positive) :
  Zpos (Pos.iter xO p k) = Zpos p * 2 ^ Zpos k.
Proof.
  induction k as [|k IH] using Pos.peano_ind.
  - cbn [Pos.iter]. rewrite Pos2Z.inj_xO. change (2 ^ 1) with 2. lia.
  - rewrite Pos.iter_succ, Pos2Z.inj_xO, IH, Pos2Z.inj_succ.
    rewrite Z.pow_succ_r by lia. lia.
Qed.

Lemma shift_round_0 (z : Z) : Float32.shift_round z 0 = z.
Proof. reflexivity. Qed.

Lemma pow2_split (a b : Z) : 0 <= a -> 0 <= b -> 2 ^ (a + b) = 2 ^ a * 2 ^ b.
Proof. intros. apply Z.pow_add_r; assumption. Qed.

Lemma Zdigits2_bounds (z : Z) :
  0 < z -> 0 < Zdigits2 z /\ 2 ^ (Zdigits2 z - 1) <= z < 2 ^ Zdigits2 z.
Proof.
  intros Hz. destruct z as [|p|p]; try lia. cbn [Zdigits2].
  split; [lia|]. apply digits2_pos_bounds.
Qed.

(** [(float)z] for a positive [z]: a normal number of 24 digits whose
    value is [z] rounded to 24 significant bits. *)
Lemma of_int_pos (z : Z) :
  0 < z < 2 ^ 64 ->
  exists m e,
    Float32.of_int z = S754_finite false m e /\
    2 ^ 23 <= Zpos m < 2 ^ 24 /\
    -23 <= e <= 41 /\
    Zpos m * 2 ^ (e + 23) = 2 ^ 23 * Float32.nearest_int z.
Proof.
  intros [Hz Hz64].
  destruct (Zdigits2_bounds z Hz) as (Hd0 & Hlo & Hhi).
  unfold Float32.nearest_int, Float32.prec.
  set (d := Zdigits2 z) in *.
  assert (Hd64 : d <= 64).
  { destruct (Z_le_gt_dec d 64); [assumption|].
    assert (2 ^ 64 <= 2 ^ (d - 1)) by (apply Z.pow_le_mono_r; lia). lia. }
  destruct z as [|p|p]; try lia.
  unfold Float32.of_int, Float32.prec, Float32.emax, binary_normalize, binary_round.
  change (Zpos (digits2_pos p)) with d.
  rewrite Z.add_0_r, fexp_normal by lia.
  assert (Hdig : Zdigits2 (Zpos p) = d) by reflexivity.
  clearbody d.
  unfold shl_align.
  destruct (d - 24 - 0) as [|k|k] eqn:Ek.
  - (* exactly 24 digits *)
    assert (Hd24 : d = 24) by lia. rewrite Hd24 in *. clear Hd24.
    rewrite (binary_round_aux_normal false (Zpos p) 0 loc_Exact 24); try lia.
    + change (Z.to_nat (24 - 24)) with 0%nat.
      cbn [Nat.iter nat_rect shr_record_of_loc shr_m loc_of_shr_record
           round_nearest_even].
      destruct (Z.ltb_spec (Zpos p) (2 ^ 24)); [|lia].
      exists p, 0. cbn [Z.to_pos]. repeat split; try lia.
      change (Z.to_nat (24 - 24)) with 0%nat.
      rewrite shift_round_0. change (2 ^ Z.of_nat 0) with 1. lia.
    + change (Z.to_nat (24 - 24)) with 0%nat. cbn. lia.
  - (* more than 24 digits: the low bits are rounded away *)
    assert (Hk : d - 24 = Zpos k) by lia.
    pose proof (shift_round_bounds (Zpos p) (Z.to_nat (d - 24)) ltac:(lia)) as Hsr.
    rewrite Z2Nat.id in Hsr by lia.
    assert (Hq : 2 ^ 23 <= Zpos p / 2 ^ (d - 24) < 2 ^ 24).
    { assert (Hp : 0 < 2 ^ (d - 24)) by (apply Z.pow_pos_nonneg; lia).
      assert (E1 : 2 ^ (d - 1) = 2 ^ 23 * 2 ^ (d - 24)).
      { rewrite <- pow2_split by lia. f_equal. lia. }
      assert (E2 : 2 ^ d = 2 ^ 24 * 2 ^ (d - 24)).
      { rewrite <- pow2_split by lia. f_equal. lia. }
      split.
      - apply Z.div_le_lower_bound; lia.
      - apply Z.div_lt_upper_bound; lia. }
    rewrite (binary_round_aux_normal false (Zpos p) 0 loc_Exact d); try lia.
    + cbn [shr_record_of_loc].
      fold (Float32.shr_n (Zpos p) (Z.to_nat (d - 24))).
      fold (Float32.shift_round (Zpos p) (Z.to_nat (d - 24))).
      set (m1 := Float32.shift_round (Zpos p) (Z.to_nat (d - 24))) in *.
      rewrite Z2Nat.id by lia.
      destruct (Z.ltb_spec m1 (2 ^ 24)) as [Hlt|Hge].
      * exists (Z.to_pos m1), (0 + (d - 24)).
        rewrite Z2Pos.id by lia. repeat split; try lia.
        replace (0 + (d - 24) + 23) with (23 + (d - 24)) by lia.
        rewrite pow2_split by lia. lia.
      * exists (Z.to_pos (2 ^ 23)), (0 + (d - 24) + 1).
        change (Zpos (Z.to_pos (2 ^ 23))) with (2 ^ 23).
        repeat split; try lia.
        replace (0 + (d - 24) + 1 + 23) with (24 + (d - 24)) by lia.
        rewrite pow2_split by lia. replace m1 with (2 ^ 24) by lia. lia.
    + cbn [shr_record_of_loc].
      fold (Float32.shr_n (Zpos p) (Z.to_nat (d - 24))).
      fold (Float32.shift_round (Zpos p) (Z.to_nat (d - 24))). lia.
  - (* fewer than 24 digits: shifted left, exact *)
    assert (Hk : 24 - d = Zpos k) by lia.
    assert (Hm : Zpos (Pos.iter xO p k) = Zpos p * 2 ^ (24 - d)).
    { rewrite Pos_iter_xO, Hk. reflexivity. }
    assert (Hp : 0 < 2 ^ (24 - d)) by (apply Z.pow_pos_nonneg; lia).
    assert (E1 : 2 ^ 23 = 2 ^ (d - 1) * 2 ^ (24 - d)).
    { rewrite <- pow2_split by lia. f_equal. lia. }
    assert (E2 : 2 ^ 24 = 2 ^ d * 2 ^ (24 - d)).
    { rewrite <- pow2_split by lia. f_equal. lia. }
    assert (Hrange : 2 ^ 23 <= Zpos (Pos.iter xO p k) < 2 ^ 24).
    { rewrite Hm. split; nia. }
    rewrite (binary_round_aux_normal false _ (d - 24) loc_Exact 24); try lia.
    + change (Z.to_nat (24 - 24)) with 0%nat.
      cbn [Nat.iter nat_rect shr_record_of_loc shr_m loc_of_shr_record
           round_nearest_even].
      destruct (Z.ltb_spec (Zpos (Pos.iter xO p k)) (2 ^ 24)); [|lia].
      exists (Pos.iter xO p k), (d - 24 + (24 - 24)). cbn [Z.to_pos].
      repeat split; try lia.
      replace (Z.to_nat (d - 24)) with 0%nat by lia.
      rewrite shift_round_0. change (2 ^ Z.of_nat 0) with 1.
      rewrite Hm.
      replace (d - 24 + (24 - 24) + 23) with (d - 1) by lia.
      rewrite E1. lia.
    + apply Zdigits2_range; lia.
    + change (Z.to_nat (24 - 24)) with 0%nat. cbn. lia.
Qed.

(** [(float)z] keeps the number of binary digits of [z], up to the
    carry into the next power of two; so the conversion is monotone. *)
Lemma nearest_int_bounds (z : Z) :
  0 < z -> 2 ^ (Zdigits2 z - 1) <= Float32.nearest_int z <= 2 ^ Zdigits2 z.
Proof.
  intros Hz. destruct (Zdigits2_bounds z Hz) as (Hd0 & Hlo & Hhi).
  unfold Float32.nearest_int, Float32.prec. set (d := Zdigits2 z) in *. clearbody d.
  destruct (Z_le_gt_dec d 24) as [Hle|Hgt].
  - replace (Z.to_nat (d - 24)) with 0%nat by lia.
    rewrite shift_round_0. change (2 ^ Z.of_nat 0) with 1. lia.
  - pose proof (shift_round_bounds z (Z.to_nat (d - 24)) ltac:(lia)) as Hsr.
    rewrite Z2Nat.id in * by lia.
    assert (Hp : 0 < 2 ^ (d - 24)) by (apply Z.pow_pos_nonneg; lia).
    assert (E1 : 2 ^ (d - 1) = 2 ^ 23 * 2 ^ (d - 24)).
    { rewrite <- pow2_split by lia. f_equal. lia. }
    assert (E2 : 2 ^ d = 2 ^ 24 * 2 ^ (d - 24)).
    { rewrite <- pow2_split by lia. f_equal. lia. }
    assert (Hq : 2 ^ 23 <= z / 2 ^ (d - 24) < 2 ^ 24).
    { split.
      - apply Z.div_le_lower_bound; lia.
      - apply Z.div_lt_upper_bound; lia. }
    rewrite E1, E2. split; apply Z.mul_le_mono_nonneg_r; lia.
Qed.

Lemma nearest_int_mono (z1 z2 : Z) :
  0 < z1 <= z2 -> Float32.nearest_int z1 <= Float32.nearest_int z2.
Proof.
  intros [H1 H12].
  destruct (Zdigits2_bounds z1 H1) as (Hd1 & Hlo1 & Hhi1).
  destruct (Zdigits2_bounds z2 ltac:(lia)) as (Hd2 & Hlo2 & Hhi2).
  pose proof (nearest_int_bounds z1 H1) as B1.
  pose proof (nearest_int_bounds z2 ltac:(lia)) as B2.
  destruct (Z.lt_trichotomy (Zdigits2 z1) (Zdigits2 z2)) as [Hlt|[Heq|Hgt]].
  - assert (2 ^ Zdigits2 z1 <= 2 ^ (Zdigits2 z2 - 1))
      by (apply Z.pow_le_mono_r; lia).
    lia.
  - unfold Float32.nearest_int, Float32.prec. rewrite Heq.
    apply Z.mul_le_mono_nonneg_r.
    + apply Z.pow_nonneg. lia.
    + apply shift_round_mono. lia.
  - exfalso.
    assert (2 ^ Zdigits2 z2 <= 2 ^ (Zdigits2 z1 - 1))
      by (apply Z.pow_le_mono_r; lia).
    lia.
Qed.

Lemma round_nearest_even_bounds (m : Z) (l : location) :
  m <= round_nearest_even m l <= m + 1.
Proof.
  destruct l as [|[| |]]; cbn [round_nearest_even]; try lia.
  destruct (Z.even m); lia.
Qed.

Lemma loc_of_shr_record_of_loc (m : Z) (l : location) :
  loc_of_shr_record (shr_record_of_loc m l) = l.
Proof. destruct l as [|[| |]]; reflexivity. Qed.

Lemma shr_m_of_loc (m : Z) (l : location) : shr_m (shr_record_of_loc m l) = m.
Proof. destruct l as [|[| |]]; reflexivity. Qed.

Lemma shr_1_of_loc (m : Z) (l : location) :
  0 <= m -> shr_m (shr_1 (shr_record_of_loc m l)) = m / 2.
Proof.
  intros Hm. destruct l as [|[| |]]; cbn [shr_record_of_loc];
    rewrite shr_1_nonneg by assumption; reflexivity.
Qed.

Lemma new_location_0 (n : Z) : new_location n 0 = loc_Exact.
Proof.
  unfold new_location, new_location_even, new_location_odd.
  destruct (Z.even n); reflexivity.
Qed.

(** The quotient of two normal positive floats, the first no larger
    than the second, is at most one. *)
Lemma div_normal_le_one (m1 m2 : positive) (e1 e2 : Z) :
  2 ^ 23 <= Zpos m1 < 2 ^ 24 -> 2 ^ 23 <= Zpos m2 < 2 ^ 24 ->
  -23 <= e1 <= 41 -> -23 <= e2 <= 41 ->
  Zpos m1 * 2 ^ (e1 + 23) <= Zpos m2 * 2 ^ (e2 + 23) ->
  exists m e,
    SFdiv 24 128 (S754_finite false m1 e1) (S754_finite false m2 e2) =
    S754_finite false m e /\
    (e < -23 \/ (e = -23 /\ m = 8388608%positive)).
Proof.
  intros Hm1 Hm2 He1 He2 Hle.
  assert (Hord : e1 < e2 \/ (e1 = e2 /\ Zpos m1 <= Zpos m2)).
  { destruct (Z.lt_trichotomy e1 e2) as [H|[H|H]]; [left; assumption| |].
    - right. split; [assumption|]. subst e2.
      assert (0 < 2 ^ (e1 + 23)) by (apply Z.pow_pos_nonneg; lia). nia.
    - exfalso.
      assert (E : 2 ^ (e1 + 23) = 2 ^ (e1 - e2) * 2 ^ (e2 + 23)).
      { rewrite <- pow2_split by lia. f_equal. lia. }
      assert (0 < 2 ^ (e2 + 23)) by (apply Z.pow_pos_nonneg; lia).
      assert (2 ^ 1 <= 2 ^ (e1 - e2)) by (apply Z.pow_le_mono_r; lia).
      change (2 ^ 1) with 2 in *. nia. }
  unfold SFdiv, SFdiv_core_binary. cbn [xorb].
  rewrite (Zdigits2_range (Zpos m1) 24) by lia.
  rewrite (Zdigits2_range (Zpos m2) 24) by lia.
  rewrite fexp_normal by lia.
  replace (Z.min (24 + e1 - (24 + e2) - 24) (e1 - e2)) with (e1 - e2 - 24) by lia.
  replace (e1 - e2 - (e1 - e2 - 24)) with 24 by lia.
  rewrite Z.shiftl_mul_pow2 by lia.
  pose proof (Z_div_mod (Zpos m1 * 2 ^ 24) (Zpos m2) ltac:(lia)) as Hdm.
  destruct (Z.div_eucl (Zpos m1 * 2 ^ 24) (Zpos m2)) as [q r].
  destruct Hdm as [Hq Hr].
  assert (Hqlo : 2 ^ 23 <= q) by nia.
  assert (Hqhi : q < 2 ^ 25) by nia.
  destruct (Z.eq_dec (Zpos m1) (Zpos m2)) as [Hm|Hm].
  - (* equal mantissas: the quotient is a power of two *)
    assert (q = 2 ^ 24) by nia. assert (r = 0) by nia. subst q r.
    rewrite new_location_0.
    rewrite (binary_round_aux_normal false (2 ^ 24) _ loc_Exact 25);
      try lia; try reflexivity.
    + change (Z.to_nat (25 - 24)) with 1%nat.
      cbn [Nat.iter nat_rect shr_record_of_loc].
      change (2 ^ 24) with 16777216.
      cbn [shr_1 shr_m loc_of_shr_record round_nearest_even shr_r shr_s].
      change (8388608 <? 16777216) with true. cbv iota.
      eexists. eexists. split; [reflexivity|].
      destruct Hord as [Hlt|[Heq _]]; [left; lia|right; split; [lia|reflexivity]].
    + vm_compute. split; discriminate.
  - destruct (Z_lt_le_dec q (2 ^ 24)) as [Hlt|Hge].
    + (* a quotient of 24 digits *)
      rewrite (binary_round_aux_normal false q _ _ 24); try lia.
      * change (Z.to_nat (24 - 24)) with 0%nat. cbn [Nat.iter nat_rect].
        rewrite shr_m_of_loc, loc_of_shr_record_of_loc.
        pose proof (round_nearest_even_bounds q (new_location (Zpos m2) r)) as Hb.
        destruct (Z.ltb_spec (round_nearest_even q (new_location (Zpos m2) r))
                             (2 ^ 24)).
        -- eexists. eexists. split; [reflexivity|]. left.
           destruct Hord as [?|[? ?]]; [lia|]. nia.
        -- eexists. eexists. split; [reflexivity|].
           destruct Hord as [?|[? ?]]; [left; lia|].
           right. split; [lia|reflexivity].
      * apply Zdigits2_range; lia.
      * change (Z.to_nat (24 - 24)) with 0%nat. cbn [Nat.iter nat_rect].
        rewrite shr_m_of_loc, loc_of_shr_record_of_loc.
        pose proof (round_nearest_even_bounds q (new_location (Zpos m2) r)). lia.
    + (* a quotient of 25 digits: the exponents differ *)
      assert (He : e1 < e2).
      { destruct Hord as [?|[? ?]]; [assumption|]. exfalso. nia. }
      assert (Hhalf : 2 ^ 23 <= q / 2 < 2 ^ 24).
      { split.
        - apply Z.div_le_lower_bound; lia.
        - apply Z.div_lt_upper_bound; lia. }
      rewrite (binary_round_aux_normal false q _ _ 25); try lia.
      * change (Z.to_nat (25 - 24)) with 1%nat. cbn [Nat.iter nat_rect].
        set (mrs := shr_1 (shr_record_of_loc q (new_location (Zpos m2) r))).
        assert (Hmrs : shr_m mrs = q / 2) by (apply shr_1_of_loc; lia).
        pose proof (round_nearest_even_bounds (shr_m mrs) (loc_of_shr_record mrs))
          as Hb.
        destruct (Z.ltb_spec (round_nearest_even (shr_m mrs) (loc_of_shr_record mrs))
                             (2 ^ 24)).
        -- eexists. eexists. split; [reflexivity|]. left. lia.
        -- eexists. eexists. split; [reflexivity|].
           destruct (Z.eq_dec (e1 - e2 - 24 + (25 - 24) + 1) (-23)) as [E|E].
           ++ right. split; [exact E|reflexivity].
           ++ left. lia.
      * apply Zdigits2_range; lia.
      * change (Z.to_nat (25 - 24)) with 1%nat. cbn [Nat.iter nat_rect].
        set (mrs := shr_1 (shr_record_of_loc q (new_location (Zpos m2) r))).
        assert (Hmrs : shr_m mrs = q / 2) by (apply shr_1_of_loc; lia).
        pose proof (round_nearest_even_bounds (shr_m mrs) (loc_of_shr_record mrs))
          as Hb.
        lia.
Qed.

(** ** [(float)rand() / (float)(RAND_MAX)] *)

(** For [0 <= r <= max] the quotient [(float)r / (float)max] lies
    between [0] and [1], both included. *)
Lemma quotient_in_unit_interval (r max : Z) :
  0 <= r <= max -> 0 < max < 2 ^ 64 ->
  Float32.le Float32.zero
    (Float32.div (Float32.of_int r) (Float32.of_int max)) = true /\
  Float32.le (Float32.div (Float32.of_int r) (Float32.of_int max))
    Float32.one = true.
Proof.
  intros Hr Hmax.
  destruct (of_int_pos max Hmax) as (m2 & e2 & E2 & M2 & X2 & V2).
  destruct (Z.eq_dec r 0) as [->|Hr0].
  - rewrite E2. split; reflexivity.
  - destruct (of_int_pos r ltac:(lia)) as (m1 & e1 & E1 & M1 & X1 & V1).
    pose proof (nearest_int_mono r max ltac:(lia)) as Hmono.
    destruct (div_normal_le_one m1 m2 e1 e2 M1 M2 X1 X2 ltac:(lia))
      as (m & e & Ediv & Hone).
    unfold Float32.div, Float32.prec, Float32.emax. rewrite E1, E2, Ediv.
    split; [reflexivity|].
    unfold Float32.le, SFleb, Float32.one.
    change (SFone Float32.prec Float32.emax)
      with (S754_finite false 8388608 (-23)).
    cbn [SFcompare].
    destruct Hone as [Hlt|[-> ->]].
    + destruct (Z.compare_spec e (-23)); try lia; reflexivity.
    + reflexivity.
Qed.

Lemma random_float_in_unit_interval {P : Platform} {HP : PlatformOk P} (s : rand_state) (n : nat) :
  Float32.le Float32.zero (random_float (rand_nth s n)) = true /\
  Float32.le (random_float (rand_nth s n)) Float32.one = true.
Proof.
  assert (Hrange : 0 <= rand_nth s n <= RAND_MAX).
  { revert s. induction n as [|n IH]; intros s; cbn [rand_nth].
    - apply rand_range.
    - apply IH. }
  pose proof RAND_MAX_range as HM.
  apply quotient_in_unit_interval; lia.
Qed.

Lemma lehmer_ok : PlatformOk lehmer.
Proof.
  split.
  - cbn. lia.
  - intros s. change (0 <= (16807 * s) mod 2147483647 <= 2147483647).
    pose proof (Z.mod_pos_bound (16807 * s) 2147483647 ltac:(lia)). lia.
  - cbn. lia.
Qed.

(** C3 (amended).  Every element that [generateRandomFloatData] writes
    is the quotient [(float)rand() / (float)(RAND_MAX)] of the next
    value of the generator, and lies in the closed interval from 0 to
    1: at least [0] and at most [1], where [1] itself can occur.  So
    [prepareData] leaves every element of A and of B in that
    interval. *)
Theorem random_inputs_in_closed_unit_interval {P : Platform}
    (HP : PlatformOk P) (self : MetalAdder) (w : World) :
  (forall buffer, exists w',
     generateRandomFloatData buffer w = Ok tt w' /\
     forall i, 0 <= i < arrayLength ->
       buf_contents (w_heap w' buffer) i =
       random_float (rand_nth (w_rng w) (Z.to_nat i)) /\
       Float32.le Float32.zero (buf_contents (w_heap w' buffer) i) = true /\
       Float32.le (buf_contents (w_heap w' buffer) i) Float32.one = true) /\
  (exists self' w',
     prepareData self w = Ok self' w' /\
     forall i, 0 <= i < arrayLength ->
       Float32.le Float32.zero (A_at self' w' i) = true /\
       Float32.le (A_at self' w' i) Float32.one = true /\
       Float32.le Float32.zero (B_at self' w' i) = true /\
       Float32.le (B_at self' w' i) Float32.one = true).
Proof.
  split.
  - intros buffer.
    destruct (generateRandomFloatData_spec buffer w)
      as (w' & Hrun & _ & _ & _ & _ & _ & _ & _ & Hin & _).
    exists w'. split; [exact Hrun|].
    intros i Hi. rewrite (Hin i Hi). split; [reflexivity|].
    apply random_float_in_unit_interval.
  - destruct (prepareData_spec self w)
      as (self' & w' & Hrun & _ & _ & _ & _ & _ & _ & _ & _ & _ & _ & _ & _ &
          HA & HB & _).
    exists self', w'. split; [exact Hrun|].
    intros i Hi. rewrite (HA i Hi), (HB i Hi).
    split; [apply random_float_in_unit_interval|].
    split; [apply random_float_in_unit_interval|].
    split; apply random_float_in_unit_interval.
Qed.

Lemma random_inputs_in_closed_unit_interval_witness :
  PlatformOk lehmer /\
  exists self' w',
    @prepareData lehmer idle_adder good_world = Ok self' w' /\
    forall i, 0 <= i < arrayLength ->
      Float32.le Float32.zero (A_at self' w' i) = true /\
      Float32.le (A_at self' w' i) Float32.one = true /\
      Float32.le Float32.zero (B_at self' w' i) = true /\
      Float32.le (B_at self' w' i) Float32.one = true.
Proof.
  split; [exact lehmer_ok|].
  apply (random_inputs_in_closed_unit_interval lehmer_ok idle_adder good_world).
Defined.

(** C3, as stated, fails: the generator returns [RAND_MAX - 1], which
    [(float)] rounds up to [2^31] as it does [RAND_MAX], and element 0
    of the buffer becomes exactly [1], which is not below [1]. *)
Lemma random_input_can_be_one :
  fst (@rand lehmer (w_rng near_max_world)) = @RAND_MAX lehmer - 1 /\
  exists w',
    @generateRandomFloatData lehmer 1%nat near_max_world = Ok tt w' /\
    buf_contents (w_heap w' 1%nat) 0 = Float32.one /\
    Float32.lt (buf_contents (w_heap w' 1%nat) 0) Float32.one = false.
Proof.
  split; [reflexivity|].
  destruct (@generateRandomFloatData_spec lehmer 1%nat near_max_world)
    as (w' & Hrun & _ & _ & _ & _ & _ & _ & _ & Hin & _).
  exists w'. split; [exact Hrun|].
  assert (H0 : 0 <= 0 < arrayLength) by (rewrite arrayLength_value; lia).
  rewrite (Hin 0 H0). split; reflexivity.
Qed.

(** ** Buffer sizes *)

Section SizeFacts.

Context {P : Platform}.

Lemma sendComputeCommand_no_commandBuffer self w :
  commandBuffer_ok (_mDevice self) = false ->
  sendComputeCommand self w = Abort w.
Proof.
  intros H. unfold sendComputeCommand, bind, assert. rewrite H. reflexivity.
Qed.

Lemma sendComputeCommand_no_encoder self w :
  commandBuffer_ok (_mDevice self) = true ->
  computeCommandEncoder_ok (_mDevice self) = false ->
  sendComputeCommand self w = Abort w.
Proof.
  intros H1 H2. unfold sendComputeCommand, bind, assert.
  rewrite H1, H2. reflexivity.
Qed.

(** The heap [sendComputeCommand] ends with: the one the device left,
    or the one it started with when an assertion stopped it before
    the commit. *)
Lemma sendComputeCommand_heap self w :
  w_heap (final_world (sendComputeCommand self w)) =
  if commandBuffer_ok (_mDevice self) &&
     computeCommandEncoder_ok (_mDevice self)
  then w_heap (world_after_wait self w)
  else w_heap w.
Proof.
  destruct (commandBuffer_ok (_mDevice self)) eqn:Hcb.
  - destruct (computeCommandEncoder_ok (_mDevice self)) eqn:Henc.
    + cbn [andb]. eapply eq_trans.
      * apply (f_equal (fun o => w_heap (final_world o))).
        apply (sendComputeCommand_unfold self w Hcb Henc).
      * cbv beta. eapply eq_trans; [apply verifyResults_heap|reflexivity].
    + apply (f_equal (fun o => w_heap (final_world o))
                     (sendComputeCommand_no_encoder self w Hcb Henc)).
  - apply (f_equal (fun o => w_heap (final_world o))
                   (sendComputeCommand_no_commandBuffer self w Hcb)).
Qed.

Lemma sendComputeCommand_lengths self w b :
  buf_length (w_heap (final_world (sendComputeCommand self w)) b) =
  buf_length (w_heap w b).
Proof.
  rewrite sendComputeCommand_heap.
  destruct (commandBuffer_ok (_mDevice self) &&
            computeCommandEncoder_ok (_mDevice self)); reflexivity.
Qed.

End SizeFacts.

(** C9.  [verifyResults] only reads: whether it returns or aborts, the
    heap, and with it every element of A, B and Result, is what it was
    on entry; when it returns, the whole world is.  Nor does the host
    write a buffer element anywhere else after the data is prepared:
    the heap [sendComputeCommand] ends with is the one the device left
    (or, when an assertion stopped it before the commit, the one it
    started with). *)
Theorem verifyResults_reads_only {P : Platform}
    (self : MetalAdder) (w : World) :
  w_heap (final_world (verifyResults self w)) = w_heap w /\
  (forall w', verifyResults self w = Ok tt w' ->
     w' = w /\
     forall i, A_at self w' i = A_at self w i /\
               B_at self w' i = B_at self w i /\
               Result_at self w' i = Result_at self w i) /\
  w_heap (final_world (sendComputeCommand self w)) =
  (if commandBuffer_ok (_mDevice self) &&
      computeCommandEncoder_ok (_mDevice self)
   then w_heap (world_after_wait self w)
   else w_heap w).
Proof.
  split; [|split].
  - apply verifyResults_heap.
  - intros w' Hok.
    destruct (verifyResults_spec self w) as [[Hok' _]|(j & _ & _ & _ & Hab)].
    + assert (Hw : w' = w).
      { assert (H : final_world (verifyResults self w) = w')
          by (apply (f_equal final_world Hok)).
        assert (H' : final_world (verifyResults self w) = w)
          by (apply (f_equal final_world Hok')).
        exact (eq_trans (eq_sym H) H'). }
      split; [exact Hw|]. rewrite Hw. intros i. repeat split.
    + assert (H : aborted (verifyResults self w) = false)
        by (apply (f_equal aborted Hok)).
      assert (H' : aborted (verifyResults self w) = true)
        by (apply (f_equal aborted Hab)).
      exact (False_ind _ (eq_true_false_abs _ H' H)).
  - apply sendComputeCommand_heap.
Qed.

Lemma bufferSize_is_product : bufferSize = arrayLength * sizeof_float.
Proof. unfold bufferSize. rewrite arrayLength_value. reflexivity. Qed.

(** C8.  [prepareData] allocates A, B and Result with one and the same
    length, [arrayLength × sizeof(float)] bytes, which is the constant
    [bufferSize] (the product does not wrap); and nothing that runs
    afterwards changes the length of any buffer. *)
Theorem buffers_share_one_fixed_size {P : Platform}
    (self : MetalAdder) (w : World) :
  bufferSize = arrayLength * sizeof_float /\
  bufferSize = 67108864 /\
  exists self' w',
    prepareData self w = Ok self' w' /\
    buf_length (w_heap w' (_mBufferA self')) = arrayLength * sizeof_float /\
    buf_length (w_heap w' (_mBufferB self')) = arrayLength * sizeof_float /\
    buf_length (w_heap w' (_mBufferResult self')) = arrayLength * sizeof_float /\
    forall b,
      buf_length (w_heap (final_world (sendComputeCommand self' w')) b) =
      buf_length (w_heap w' b).
Proof.
  split; [exact bufferSize_is_product|]. split; [exact bufferSize_value|].
  destruct (prepareData_spec self w)
    as (self' & w' & Hrun & _ & _ & _ & _ & _ & _ & _ & _ & _ & LA & LB & LR & _).
  exists self', w'. split; [exact Hrun|].
  rewrite <- bufferSize_is_product.
  split; [exact LA|]. split; [exact LB|]. split; [exact LR|].
  intros b. apply sendComputeCommand_lengths.
Qed.

(** ** Runs *)

Section RunFacts.

Context {P : Platform}.

(** The constructor either aborts or returns an adder on the device
    it was given; it leaves the world alone. *)
Lemma MetalAdder_new_ok device w :
  aborted (MetalAdder_new device w) = false ->
  exists adder,
    MetalAdder_new device w = Ok adder w /\ _mDevice adder = device.
Proof.
  unfold MetalAdder_new.
  destruct (newLibrary device shaderSrc) as [lib|]; [|discriminate].
  destruct (newFunction device lib "add_arrays") as [fn|]; [|discriminate].
  destruct (newComputePipelineState device fn) as [pso|]; [|discriminate].
  destruct (newCommandQueue device) as [queue|]; [|discriminate].
  intros _. eexists. split; reflexivity.
Qed.

(** The inputs of a run depend on the state of the generator at the
    start and on nothing else. *)
Lemma prepared_run_inputs device w i :
  aborted (MetalAdder_new device w) = false ->
  0 <= i < arrayLength ->
  input_A (prepared_run device w) i =
  Some (random_float (rand_nth (w_rng w) (Z.to_nat i))) /\
  input_B (prepared_run device w) i =
  Some (random_float
          (rand_nth (rand_advance (w_rng w) (Z.to_nat arrayLength))
                    (Z.to_nat i))).
Proof.
  intros Hnew Hi.
  destruct (MetalAdder_new_ok device w Hnew) as (adder & Hadder & _).
  destruct (prepareData_spec adder w)
    as (self' & w' & Hrun & _ & _ & _ & _ & _ & _ & _ & _ & _ & _ & _ & _ &
        HA & HB & _).
  assert (Heq : prepared_run device w = Ok self' w').
  { unfold prepared_run.
    eapply eq_trans; [apply (bind_Ok _ _ w adder w Hadder)|]. exact Hrun. }
  split.
  - eapply eq_trans; [apply (f_equal (fun o => input_A o i) Heq)|].
    cbn [input_A]. f_equal. apply HA, Hi.
  - eapply eq_trans; [apply (f_equal (fun o => input_B o i) Heq)|].
    cbn [input_B]. f_equal. apply HB, Hi.
Qed.

End RunFacts.

(** C4 (amended).  The program never seeds the generator, so every run
    starts it in the state of [srand(1)], and [rand()] is a function of
    that state: two runs on the same C library, whatever their device,
    their memory at start and their clock, fill A and B with the same
    values, element [i] of A from the [i]-th value of the default
    sequence and element [i] of B from the [(arrayLength + i)]-th. *)
Theorem inputs_identical_across_runs {P : Platform}
    (device1 device2 : Device) (heap1 heap2 : Heap)
    (clock1 clock2 : nat -> Z) (i : Z)
    (Hnew1 : aborted (MetalAdder_new device1 (initial_world heap1 clock1)) = false)
    (Hnew2 : aborted (MetalAdder_new device2 (initial_world heap2 clock2)) = false)
    (Hi : 0 <= i < arrayLength) :
  let run1 := prepared_run device1 (initial_world heap1 clock1) in
  let run2 := prepared_run device2 (initial_world heap2 clock2) in
  input_A run1 i = Some (random_float (rand_nth (srand 1) (Z.to_nat i))) /\
  input_B run1 i =
  Some (random_float
          (rand_nth (rand_advance (srand 1) (Z.to_nat arrayLength))
                    (Z.to_nat i))) /\
  input_A run1 i = input_A run2 i /\
  input_B run1 i = input_B run2 i.
Proof.
  intros run1 run2.
  destruct (prepared_run_inputs device1 (initial_world heap1 clock1) i Hnew1 Hi)
    as [HA1 HB1].
  destruct (prepared_run_inputs device2 (initial_world heap2 clock2) i Hnew2 Hi)
    as [HA2 HB2].
  split; [exact HA1|]. split; [exact HB1|].
  split.
  - exact (eq_trans HA1 (eq_sym HA2)).
  - exact (eq_trans HB1 (eq_sym HB2)).
Qed.

Lemma inputs_identical_across_runs_witness :
  aborted (@MetalAdder_new lehmer (idle_gpu 1024)
             (initial_world
                (constant_heap Float32.zero Float32.zero Float32.zero Float32.zero)
                clock_3ms)) = false /\
  aborted (@MetalAdder_new lehmer (idle_gpu 512)
             (initial_world
                (constant_heap half half Float32.one Float32.one)
                clock_stepped_back)) = false /\
  0 <= 5 < arrayLength /\
  input_A first_run 5 = input_A second_run 5 /\
  input_B first_run 5 = input_B second_run 5.
Proof.
  assert (H5 : 0 <= 5 < arrayLength) by (rewrite arrayLength_value; lia).
  split; [reflexivity|]. split; [reflexivity|]. split; [exact H5|].
  unfold first_run, second_run.
  destruct (@inputs_identical_across_runs lehmer
              (idle_gpu 1024) (idle_gpu 512)
              (constant_heap Float32.zero Float32.zero Float32.zero Float32.zero)
              (constant_heap half half Float32.one Float32.one)
              clock_3ms clock_stepped_back 5 eq_refl eq_refl H5)
    as (_ & _ & HA & HB).
  split; [exact HA|exact HB].
Defined.

(** C4, as stated, fails: two runs with different devices, different
    memory at start and different clocks have no index at which their
    inputs differ. *)
Lemma unseeded_runs_do_not_differ :
  ~ exists i, 0 <= i < arrayLength /\
      (input_A first_run i <> input_A second_run i \/
       input_B first_run i <> input_B second_run i).
Proof.
  intros (i & Hi & Hdiff).
  destruct (@prepared_run_inputs lehmer (idle_gpu 1024)
              (initial_world
                 (constant_heap Float32.zero Float32.zero Float32.zero Float32.zero)
                 clock_3ms) i eq_refl Hi) as [HA1 HB1].
  destruct (@prepared_run_inputs lehmer (idle_gpu 512)
              (initial_world
                 (constant_heap half half Float32.one Float32.one)
                 clock_stepped_back) i eq_refl Hi) as [HA2 HB2].
  destruct Hdiff as [H|H]; apply H.
  - exact (eq_trans HA1 (eq_sym HA2)).
  - exact (eq_trans HB1 (eq_sym HB2)).
Qed.

(** ** The grid of the dispatch *)

Lemma range_In (len : nat) : forall start i,
  In i (range start len) <-> start <= i < start + Z.of_nat len.
Proof.
  induction len as [|len IH]; intros start i; cbn [range In].
  - split; [contradiction|lia].
  - rewrite IH. lia.
Qed.

Lemma range_NoDup (len : nat) : forall start, NoDup (range start len).
Proof.
  induction len as [|len IH]; intros start; cbn [range]; constructor.
  - rewrite range_In. lia.
  - apply IH.
Qed.

Lemma range_length (len : nat) : forall start, List.length (range start len) = len.
Proof.
  induction len as [|len IH]; intros start; cbn [range List.length].
  - reflexivity.
  - rewrite IH. reflexivity.
Qed.

Lemma range_count (len : nat) : forall start i,
  start <= i < start + Z.of_nat len ->
  count_occ Z.eq_dec (range start len) i = 1%nat.
Proof.
  intros start i Hi.
  assert (Hin : In i (range start len)) by (apply range_In; exact Hi).
  pose proof (proj1 (NoDup_count_occ Z.eq_dec (range start len))
                    (range_NoDup len start) i) as Hle.
  apply (count_occ_In Z.eq_dec) in Hin. lia.
Qed.

(** A grid of [n] by 1 by 1 runs the threads [(0,0,0)] to
    [(n-1,0,0)], and the kernel's [index] takes the values 0 to [n-1]
    in turn. *)
Lemma thread_indices_1d (n : Z) (threadsPerThreadgroup : Size) :
  thread_indices (Size_Make n 1 1, threadsPerThreadgroup) =
  range 0 (Z.to_nat n).
Proof.
  unfold thread_indices, grid_positions.
  cbn [fst width height depth Size_Make].
  change (Z.to_nat 1) with 1%nat. cbn [range flat_map].
  rewrite !app_nil_r, map_map. cbn [fst]. apply map_id.
Qed.

(** C6.  [encodeAddCommand] records one dispatch, over a grid of
    [arrayLength] by 1 by 1 threads; the thread positions are the
    indices 0 to [arrayLength - 1], [arrayLength] threads in all, and
    every array index below [arrayLength] is the position of exactly
    one thread. *)
Theorem dispatch_covers_every_index_once (self : MetalAdder) :
  let dispatch :=
    (Size_Make arrayLength 1 1,
     Size_Make (threadGroupSize (_mAddFunctionPSO self)) 1 1) in
  enc_dispatches (encodeAddCommand self empty_encoder) = [dispatch] /\
  thread_indices dispatch = range 0 (Z.to_nat arrayLength) /\
  Z.of_nat (List.length (thread_indices dispatch)) = arrayLength /\
  NoDup (thread_indices dispatch) /\
  (forall i, In i (thread_indices dispatch) <-> 0 <= i < arrayLength) /\
  (forall i, 0 <= i < arrayLength ->
     count_occ Z.eq_dec (thread_indices dispatch) i = 1%nat).
Proof.
  intros dispatch.
  assert (Hidx : thread_indices dispatch = range 0 (Z.to_nat arrayLength))
    by apply thread_indices_1d.
  split; [reflexivity|]. split; [exact Hidx|].
  rewrite Hidx.
  split; [rewrite range_length; apply Z2Nat.id, arrayLength_nonneg|].
  split; [apply range_NoDup|].
  split.
  - intros i. rewrite range_In.
    rewrite Z2Nat.id by apply arrayLength_nonneg. lia.
  - intros i Hi. apply range_count.
    rewrite Z2Nat.id by apply arrayLength_nonneg. lia.
Qed.

(** ** The kernel on a device that runs it as written *)

Lemma fold_add_arrays (inA inB : Z -> float) (len : nat) :
  forall start result i,
    fold_left (add_arrays inA inB) (range start len) result i =
    if (start <=? i) && (i <? start + Z.of_nat len)
    then Float32.add (inA i) (inB i)
    else result i.
Proof.
  induction len as [|len IH]; intros start result i; cbn [range fold_left].
  - destruct (Z.leb_spec start i), (Z.ltb_spec i (start + Z.of_nat 0));
      cbn [andb]; try reflexivity; lia.
  - rewrite IH. unfold add_arrays.
    destruct (Z.leb_spec (start + 1) i), (Z.ltb_spec i (start + 1 + Z.of_nat len)),
             (Z.leb_spec start i), (Z.ltb_spec i (start + Z.of_nat (S len)));
      cbn [andb]; try reflexivity; try lia;
      destruct (Z.eqb_spec i start) as [->|]; try reflexivity; lia.
Qed.

(** After the dispatch of [encodeAddCommand] has run on such a device,
    with Result a buffer of its own, every element of Result below
    [arrayLength] is the sum of the elements of A and B, and A and B
    are untouched. *)
Lemma run_add_arrays_result (self : MetalAdder) (heap : Heap) (i : Z) :
  _mBufferA self <> _mBufferResult self ->
  _mBufferB self <> _mBufferResult self ->
  let enc := encodeAddCommand self empty_encoder in
  run_add_arrays enc heap (_mBufferA self) =
    buf_contents (heap (_mBufferA self)) /\
  run_add_arrays enc heap (_mBufferB self) =
    buf_contents (heap (_mBufferB self)) /\
  (0 <= i < arrayLength ->
   run_add_arrays enc heap (_mBufferResult self) i =
   Float32.add (buf_contents (heap (_mBufferA self)) i)
               (buf_contents (heap (_mBufferB self)) i)).
Proof.
  intros Ha Hb enc.
  assert (Hrun : forall h,
    run_add_arrays enc heap h =
    if Nat.eqb h (_mBufferResult self) then
      fold_left (add_arrays (buf_contents (heap (_mBufferA self)))
                            (buf_contents (heap (_mBufferB self))))
                (range 0 (Z.to_nat arrayLength))
                (buf_contents (heap (_mBufferResult self)))
    else buf_contents (heap h)).
  { intros h. unfold run_add_arrays, enc, encodeAddCommand.
    cbn [enc_buffers enc_dispatches dispatchThreads setBuffer
         setComputePipelineState empty_encoder Z.eqb Pos.eqb app flat_map].
    rewrite thread_indices_1d, app_nil_r. reflexivity. }
  rewrite !Hrun.
  destruct (Nat.eqb_spec (_mBufferA self) (_mBufferResult self)); [contradiction|].
  destruct (Nat.eqb_spec (_mBufferB self) (_mBufferResult self)); [contradiction|].
  split; [reflexivity|]. split; [reflexivity|].
  intros Hi. rewrite Nat.eqb_refl, fold_add_arrays.
  rewrite Z2Nat.id by apply arrayLength_nonneg.
  destruct (Z.leb_spec 0 i), (Z.ltb_spec i (0 + arrayLength));
    cbn [andb]; try reflexivity; lia.
Qed.

(** ** Sums of the inputs *)

Lemma shr_fexp_exact_nonneg (m e : Z) :
  0 <= m ->
  0 <= shr_m (fst (shr_fexp Float32.prec Float32.emax m e loc_Exact)).
Proof.
  intros Hm. unfold shr_fexp, shr. cbn [shr_record_of_loc].
  destruct (fexp Float32.prec Float32.emax (Zdigits2 m + e) - e) as [|p|p];
    cbn [fst shr_m]; try assumption.
  rewrite iter_pos_nat. apply (shr_iter_inv m Hm).
Qed.

(** Rounding a non-negative mantissa never gives NaN. *)
Lemma binary_round_aux_not_nan (sx : bool) (m e : Z) :
  0 <= m ->
  Float32.is_nan
    (binary_round_aux Float32.prec Float32.emax sx m e loc_Exact) = false.
Proof.
  intros Hm. unfold binary_round_aux.
  pose proof (shr_fexp_exact_nonneg m e Hm) as H1.
  destruct (shr_fexp Float32.prec Float32.emax m e loc_Exact) as [mrs' e'].
  cbn [fst] in H1.
  pose proof (round_nearest_even_bounds (shr_m mrs') (loc_of_shr_record mrs'))
    as Hrne.
  pose proof (shr_fexp_exact_nonneg
                (round_nearest_even (shr_m mrs') (loc_of_shr_record mrs')) e'
                ltac:(lia)) as H2.
  destruct (shr_fexp Float32.prec Float32.emax
              (round_nearest_even (shr_m mrs') (loc_of_shr_record mrs')) e'
              loc_Exact) as [mrs'' e''].
  cbn [fst] in H2.
  destruct (shr_m mrs'') as [|p|p]; try lia.
  - reflexivity.
  - destruct (e'' <=? Float32.emax - Float32.prec); reflexivity.
Qed.

(** The sum of two floats that are [+0] or positive is not NaN, hence
    equal to itself. *)
Lemma add_nonneg_eq_refl (x y : float) :
  (x = S754_zero false \/ exists m e, x = S754_finite false m e) ->
  (y = S754_zero false \/ exists m e, y = S754_finite false m e) ->
  Float32.eq (Float32.add x y) (Float32.add x y) = true.
Proof.
  intros Hx Hy. apply eq_true_iff. left. split; [reflexivity|].
  destruct Hx as [->|(mx & ex & ->)], Hy as [->|(my & ey & ->)];
    try reflexivity.
  unfold Float32.add, SFadd. cbn [cond_Zopp].
  destruct (shl_align mx ex (Z.min ex ey)) as [ax ?].
  destruct (shl_align my ey (Z.min ex ey)) as [ay ?].
  cbn [fst Z.add binary_normalize]. unfold binary_round.
  destruct (shl_align (ax + ay) (Z.min ex ey) _) as [mz ez].
  apply binary_round_aux_not_nan. lia.
Qed.

(** The quotient of C3 is [+0] or a positive float. *)
Lemma quotient_shape (r max : Z) :
  0 <= r <= max -> 0 < max < 2 ^ 64 ->
  Float32.div (Float32.of_int r) (Float32.of_int max) = S754_zero false \/
  exists m e,
    Float32.div (Float32.of_int r) (Float32.of_int max) = S754_finite false m e.
Proof.
  intros Hr Hmax.
  destruct (of_int_pos max Hmax) as (m2 & e2 & E2 & M2 & X2 & V2).
  destruct (Z.eq_dec r 0) as [->|Hr0].
  - left. rewrite E2. reflexivity.
  - right.
    destruct (of_int_pos r ltac:(lia)) as (m1 & e1 & E1 & M1 & X1 & V1).
    pose proof (nearest_int_mono r max ltac:(lia)) as Hmono.
    destruct (div_normal_le_one m1 m2 e1 e2 M1 M2 X1 X2 ltac:(lia))
      as (m & e & Ediv & _).
    exists m, e. unfold Float32.div, Float32.prec, Float32.emax.
    rewrite E1, E2. exact Ediv.
Qed.

Lemma random_float_shape {P : Platform} {HP : PlatformOk P}
    (s : rand_state) (n : nat) :
  random_float (rand_nth s n) = S754_zero false \/
  exists m e, random_float (rand_nth s n) = S754_finite false m e.
Proof.
  assert (Hrange : 0 <= rand_nth s n <= RAND_MAX).
  { revert s. induction n as [|n IH]; intros s; cbn [rand_nth].
    - apply rand_range.
    - apply IH. }
  pose proof RAND_MAX_range as HM.
  apply quotient_shape; lia.
Qed.

(** ** A whole run *)

(** X9.  On a device that runs the kernel as written, with a C library
    as the standard describes it, [main] prints its two lines, finds
    every element of Result equal to the sum it recomputes, and returns
    0; at the end every element of A and B below [arrayLength] lies
    between 0 and 1 and the element of Result is their sum. *)
Theorem main_on_ideal_gpu {P : Platform} (HP : PlatformOk P)
    (maxThreads : Z) (heap : Heap) (clock : nat -> Z) :
  let w0 := initial_world heap clock in
  exists w',
    main (ideal_gpu maxThreads) w0 = Ok 0 w' /\
    w_stdout w' =
    [LineElapsed (elapsed_ms w0); LineBandwidth (bandwidth (elapsed_ms w0))] /\
    forall i, 0 <= i < arrayLength ->
      exists a b,
        Float32.le Float32.zero a = true /\ Float32.le a Float32.one = true /\
        Float32.le Float32.zero b = true /\ Float32.le b Float32.one = true /\
        buf_contents (w_heap w' 1%nat) i = a /\
        buf_contents (w_heap w' 2%nat) i = b /\
        buf_contents (w_heap w' 3%nat) i = Float32.add a b.
Proof.
  intros w0.
  set (adder0 :=
         {| _mDevice := ideal_gpu maxThreads;
            _mAddFunctionPSO :=
              {| pso_function := MkFunction "add_arrays";
                 maxTotalThreadsPerThreadgroup := maxThreads |};
            _mCommandQueue := MkCommandQueue;
            _mBufferA := 0%nat; _mBufferB := 0%nat; _mBufferResult := 0%nat |}).
  assert (Hnew : MetalAdder_new (ideal_gpu maxThreads) w0 = Ok adder0 w0)
    by reflexivity.
  destruct (prepareData_spec adder0 w0)
    as (self & w1 & Hprep & Hdev & _ & HbA & HbB & HbR & _ & Hout & Hclock &
        Hreads & _ & _ & _ & HA & HB & _).
  change (w_next w0) with 1%nat in HbA, HbB, HbR.
  change (w_stdout w0) with (@nil Line) in Hout.
  change (_mDevice adder0) with (ideal_gpu maxThreads) in Hdev.
  set (reported :=
         print (LineBandwidth (bandwidth (elapsed_ms w1)))
               (print (LineElapsed (elapsed_ms w1)) (world_after_wait self w1))).
  assert (Hcb : commandBuffer_ok (_mDevice self) = true)
    by (rewrite Hdev; reflexivity).
  assert (Henc : computeCommandEncoder_ok (_mDevice self) = true)
    by (rewrite Hdev; reflexivity).
  assert (Hsend : sendComputeCommand self w1 = verifyResults self reported)
    by (apply sendComputeCommand_unfold; assumption).
  assert (HneA : _mBufferA self <> _mBufferResult self)
    by (rewrite HbA, HbR; discriminate).
  assert (HneB : _mBufferB self <> _mBufferResult self)
    by (rewrite HbB, HbR; discriminate).
  assert (Hheap : forall h,
            buf_contents (w_heap reported h) =
            run_add_arrays (encodeAddCommand self empty_encoder) (w_heap w1) h).
  { intros h. unfold reported. cbn [print w_heap world_after_wait buf_contents].
    rewrite Hdev. reflexivity. }
  assert (Hsum : forall i, 0 <= i < arrayLength ->
            A_at self reported i = A_at self w1 i /\
            B_at self reported i = B_at self w1 i /\
            Result_at self reported i =
            Float32.add (A_at self w1 i) (B_at self w1 i)).
  { intros i Hi. unfold A_at, B_at, Result_at. rewrite !Hheap.
    destruct (run_add_arrays_result self (w_heap w1) i HneA HneB)
      as (RA & RB & RR).
    rewrite RA, RB, (RR Hi). repeat split. }
  assert (Hver : verifyResults self reported = Ok tt reported).
  { apply verifyResults_all_equal. intros i Hi.
    destruct (Hsum i Hi) as (SA & SB & SR).
    unfold sum_at. rewrite SA, SB, SR, (HA i Hi), (HB i Hi).
    apply add_nonneg_eq_refl; apply random_float_shape. }
  exists reported. split; [|split].
  - unfold main.
    eapply eq_trans; [apply (bind_Ok _ _ w0 adder0 w0 Hnew)|].
    eapply eq_trans; [apply (bind_Ok _ _ w0 self w1 Hprep)|].
    eapply eq_trans;
      [apply (bind_Ok _ _ w1 tt reported (eq_trans Hsend Hver))|].
    reflexivity.
  - unfold reported. cbn [print w_stdout world_after_wait].
    rewrite Hout. unfold elapsed_ms. rewrite Hclock, Hreads. reflexivity.
  - intros i Hi. destruct (Hsum i Hi) as (SA & SB & SR).
    exists (A_at self w1 i), (B_at self w1 i).
    rewrite (HA i Hi), (HB i Hi).
    split; [apply random_float_in_unit_interval|].
    split; [apply random_float_in_unit_interval|].
    split; [apply random_float_in_unit_interval|].
    split; [apply random_float_in_unit_interval|].
    rewrite <- (HA i Hi), <- (HB i Hi), <- SA, <- SB at 1 2.
    unfold A_at, B_at, Result_at in *. rewrite HbA, HbB, HbR in *.
    repeat split; try reflexivity. rewrite SR, SA, SB. reflexivity.
Qed.

(* ================================================================= *)
(** * Further properties of the code *)

(** ** The constructor *)

(** X1.  The constructor aborts exactly when one of the four creation
    calls returns null: the library compiled from [shaderSrc], the
    function ["add_arrays"] of that library, the pipeline state for
    that function, the command queue.  It leaves the world as it was
    in either case; when it returns, the adder holds the device it was
    given and the pipeline state and queue the device made. *)
Theorem constructor_aborts_iff_creation_fails {P : Platform}
    (device : Device) (w : World) :
  let lib := newLibrary device shaderSrc in
  let fn := match lib with
            | Some l => newFunction device l "add_arrays"
            | None => None
            end in
  let pso := match fn with
             | Some f => newComputePipelineState device f
             | None => None
             end in
  final_world (MetalAdder_new device w) = w /\
  (aborted (MetalAdder_new device w) = true <->
   lib = None \/ fn = None \/ pso = None \/ newCommandQueue device = None) /\
  (forall adder w',
     MetalAdder_new device w = Ok adder w' ->
     _mDevice adder = device /\
     pso = Some (_mAddFunctionPSO adder) /\
     newCommandQueue device = Some (_mCommandQueue adder)).
Proof.
  unfold MetalAdder_new.
  destruct (newLibrary device shaderSrc) as [lib|]; cbn.
  2:{ split; [reflexivity|]. split; [split; auto|]. intros ? ? H. discriminate H. }
  destruct (newFunction device lib "add_arrays") as [fn|]; cbn.
  2:{ split; [reflexivity|]. split; [split; auto|]. intros ? ? H. discriminate H. }
  destruct (newComputePipelineState device fn) as [pso|]; cbn.
  2:{ split; [reflexivity|]. split; [split; auto|]. intros ? ? H. discriminate H. }
  destruct (newCommandQueue device) as [queue|]; cbn.
  2:{ split; [reflexivity|]. split; [split; auto|]. intros ? ? H. discriminate H. }
  split; [reflexivity|]. split.
  - split; [discriminate|]. intros [H|[H|[H|H]]]; discriminate H.
  - intros adder w' H. injection H as <- <-. repeat split.
Qed.

(** ** The generator along the filling loops *)

Section AdvanceFacts.

Context {P : Platform}.



End AdvanceFacts.

(** X2.  [generateRandomFloatData] always returns.  It calls [rand()]
    exactly [arrayLength] times; it writes elements 0 to
    [arrayLength - 1] of the buffer it is given and nothing else: the
    other elements of that buffer, every other buffer and every buffer
    length are as they were; it prints nothing, allocates nothing and
    does not read the clock. *)
Theorem generateRandomFloatData_frame {P : Platform}
    (buffer : handle) (w : World) :
  exists w',
    generateRandomFloatData buffer w = Ok tt w' /\
    w_rng w' = rand_advance (w_rng w) (Z.to_nat arrayLength) /\
    (forall i, 0 <= i < arrayLength ->
       buf_contents (w_heap w' buffer) i =
       random_float (rand_nth (w_rng w) (Z.to_nat i))) /\
    (forall i, ~ 0 <= i < arrayLength ->
       buf_contents (w_heap w' buffer) i = buf_contents (w_heap w buffer) i) /\
    (forall b i, b <> buffer ->
       buf_contents (w_heap w' b) i = buf_contents (w_heap w b) i) /\
    (forall b, buf_length (w_heap w' b) = buf_length (w_heap w b)) /\
    w_stdout w' = w_stdout w /\
    w_next w' = w_next w /\
    w_clock w' = w_clock w /\
    w_reads w' = w_reads w.
Proof.
  destruct (generateRandomFloatData_spec buffer w)
    as (w' & Hrun & Hrng & Hnext & Hout & Hclock & Hreads &
        Hlen & Hother & Hin & Hout_range).
  exists w'. repeat (split; [assumption|]). assumption.
Qed.

(** ** [prepareData] *)




(** ** [sendComputeCommand], its assertions and its return *)

(** X4.  When the queue hands out no command buffer, or the command
    buffer no encoder, [sendComputeCommand] aborts on the assertion at
    once: nothing is committed to the device, the clock is not read and
    nothing is printed, so the world is exactly what it was. *)
Theorem sendComputeCommand_stops_without_encoder {P : Platform}
    (self : MetalAdder) (w : World)
    (Hnull : commandBuffer_ok (_mDevice self) &&
             computeCommandEncoder_ok (_mDevice self) = false) :
  sendComputeCommand self w = Abort w.
Proof.
  destruct (commandBuffer_ok (_mDevice self)) eqn:Hcb.
  - destruct (computeCommandEncoder_ok (_mDevice self)) eqn:Henc.
    + discriminate Hnull.
    + apply sendComputeCommand_no_encoder; assumption.
  - apply sendComputeCommand_no_commandBuffer; assumption.
Qed.

Lemma sendComputeCommand_stops_without_encoder_witness :
  commandBuffer_ok (_mDevice stalled_adder) &&
  computeCommandEncoder_ok (_mDevice stalled_adder) = false /\
  sendComputeCommand stalled_adder good_world = Abort good_world.
Proof.
  split; [reflexivity|].
  apply (sendComputeCommand_stops_without_encoder stalled_adder good_world
           eq_refl).
Defined.

(** X5.  [sendComputeCommand] returns exactly when both assertions pass
    and, in the memory the device left, every element of Result below
    [arrayLength] compares equal to the sum of the elements of A and B.
    When it returns, it has printed the elapsed-time line and the
    bandwidth line and nothing else, has read the clock twice, and has
    left the generator and the allocator alone. *)
Theorem sendComputeCommand_returns_iff {P : Platform}
    (self : MetalAdder) (w : World) :
  let done := world_after_wait self w in
  let t := elapsed_ms w in
  ((exists w', sendComputeCommand self w = Ok tt w') <->
   commandBuffer_ok (_mDevice self) = true /\
   computeCommandEncoder_ok (_mDevice self) = true /\
   forall i, 0 <= i < arrayLength ->
     Float32.eq (Result_at self done i) (sum_at self done i) = true) /\
  (forall w', sendComputeCommand self w = Ok tt w' ->
     w_stdout w' = w_stdout w ++ [LineElapsed t; LineBandwidth (bandwidth t)] /\
     w_heap w' = w_heap done /\
     w_reads w' = S (S (w_reads w)) /\
     w_rng w' = w_rng w /\
     w_next w' = w_next w).
Proof.
  intros done t.
  set (reported := print (LineBandwidth (bandwidth t)) (print (LineElapsed t) done)).
  assert (Hcases :
    sendComputeCommand self w = Abort w \/
    (commandBuffer_ok (_mDevice self) = true /\
     computeCommandEncoder_ok (_mDevice self) = true /\
     sendComputeCommand self w = verifyResults self reported)).
  { destruct (commandBuffer_ok (_mDevice self)) eqn:Hcb.
    - destruct (computeCommandEncoder_ok (_mDevice self)) eqn:Henc.
      + right. repeat split. apply sendComputeCommand_unfold; assumption.
      + left. apply sendComputeCommand_no_encoder; assumption.
    - left. apply sendComputeCommand_no_commandBuffer; assumption. }
  assert (Hret : forall w', sendComputeCommand self w = Ok tt w' ->
            commandBuffer_ok (_mDevice self) = true /\
            computeCommandEncoder_ok (_mDevice self) = true /\
            w' = reported /\
            forall i, 0 <= i < arrayLength ->
              Float32.eq (Result_at self reported i) (sum_at self reported i)
              = true).
  { intros w' Hok.
    destruct Hcases as [Hab|(Hcb & Henc & Hsend)].
    - exfalso.
      pose proof (eq_trans (eq_sym (f_equal aborted Hok)) (f_equal aborted Hab))
        as H.
      discriminate H.
    - split; [exact Hcb|]. split; [exact Henc|].
      destruct (verifyResults_spec self reported)
        as [[Hver Hall]|(j & _ & _ & _ & Hver)].
      + split; [|exact Hall].
        pose proof (eq_trans (eq_sym (f_equal final_world Hok))
                      (f_equal final_world (eq_trans Hsend Hver))) as H.
        exact H.
      + exfalso.
        pose proof (eq_trans (eq_sym (f_equal aborted Hok))
                      (f_equal aborted (eq_trans Hsend Hver))) as H.
        discriminate H. }
  split.
  - split.
    + intros (w' & Hok). destruct (Hret w' Hok) as (Hcb & Henc & _ & Hall).
      split; [exact Hcb|]. split; [exact Henc|]. exact Hall.
    + intros (Hcb & Henc & Hall). exists reported.
      eapply eq_trans; [apply (sendComputeCommand_unfold self w Hcb Henc)|].
      apply verifyResults_all_equal. exact Hall.
  - intros w' Hok. destruct (Hret w' Hok) as (_ & _ & -> & _).
    unfold reported. cbn [print w_stdout w_heap w_reads w_rng w_next].
    split; [rewrite <- app_assoc; reflexivity|].
    repeat split.
Qed.

(** ** [verifyResults] and NaN *)

Lemma eq_nan_r (x : float) : Float32.eq x S754_nan = false.
Proof. destruct x; reflexivity. Qed.

(** X6.  Where the sum [A[k] + B[k]] is NaN, [verifyResults] aborts
    whatever [Result[k]] holds, even the NaN that the kernel computes
    from the same operands: NaN compares unequal to everything. *)
Theorem verifyResults_rejects_nan_sum {P : Platform}
    (self : MetalAdder) (w : World) (k : Z)
    (Hk : 0 <= k < arrayLength)
    (Hnan : Float32.is_nan (sum_at self w k) = true) :
  aborted (verifyResults self w) = true /\
  exists j,
    0 <= j <= k /\
    w_stdout (final_world (verifyResults self w)) =
    w_stdout w ++ [LineComputeError j (Result_at self w j) (sum_at self w j)].
Proof.
  assert (Hne : Float32.eq (Result_at self w k) (sum_at self w k) = false).
  { destruct (sum_at self w k); try discriminate Hnan. apply eq_nan_r. }
  destruct (verifyResults_spec self w)
    as [[_ Hall]|(j & Hj & _ & Hbefore & Hab)].
  - rewrite (Hall k Hk) in Hne. discriminate Hne.
  - split; [exact (f_equal aborted Hab)|].
    exists j. split.
    + destruct (Z_le_gt_dec j k); [lia|].
      rewrite (Hbefore k) in Hne by lia. discriminate Hne.
    + exact (f_equal (fun o => w_stdout (final_world o)) Hab).
Qed.

Lemma verifyResults_rejects_nan_sum_witness :
  0 <= 0 < arrayLength /\
  Float32.is_nan (sum_at idle_adder nan_world 0) = true /\
  Result_at idle_adder nan_world 0 = sum_at idle_adder nan_world 0 /\
  aborted (verifyResults idle_adder nan_world) = true.
Proof.
  assert (H0 : 0 <= 0 < arrayLength) by (rewrite arrayLength_value; lia).
  split; [exact H0|]. split; [reflexivity|]. split; [reflexivity|].
  exact (proj1 (verifyResults_rejects_nan_sum idle_adder nan_world 0 H0 eq_refl)).
Defined.

(** ** The dispatch on a device that runs the kernel as written *)

(** The contents of every buffer once a device that runs [add_arrays]
    as written is through with the dispatch of [encodeAddCommand]. *)
Lemma world_after_wait_ideal_contents {P : Platform}
    (self : MetalAdder) (w : World) (h : handle) (i : Z) :
  execute (_mDevice self) = run_add_arrays ->
  buf_contents (w_heap (world_after_wait self w) h) i =
  if Nat.eqb h (_mBufferResult self) then
    fold_left (add_arrays (buf_contents (w_heap w (_mBufferA self)))
                          (buf_contents (w_heap w (_mBufferB self))))
              (range 0 (Z.to_nat arrayLength))
              (buf_contents (w_heap w (_mBufferResult self))) i
  else buf_contents (w_heap w h) i.
Proof.
  intros Hdev. cbn [world_after_wait w_heap buf_contents].
  rewrite Hdev. unfold run_add_arrays, encodeAddCommand.
  cbn [enc_buffers enc_dispatches dispatchThreads setBuffer
       setComputePipelineState empty_encoder Z.eqb Pos.eqb app flat_map].
  rewrite thread_indices_1d, app_nil_r.
  destruct (Nat.eqb h (_mBufferResult self)); reflexivity.
Qed.

(** X7.  On a device that runs [add_arrays] as written, with Result a
    buffer distinct from A and from B, the one dispatch that
    [sendComputeCommand] commits leaves in every element of Result
    below [arrayLength] the single-precision sum of the elements of A
    and B, and writes nothing else: the elements of Result from
    [arrayLength] on, every other buffer and every buffer length are as
    they were. *)
Theorem ideal_dispatch_adds_elementwise {P : Platform}
    (self : MetalAdder) (w : World)
    (Hdev : execute (_mDevice self) = run_add_arrays)
    (HA : _mBufferA self <> _mBufferResult self)
    (HB : _mBufferB self <> _mBufferResult self) :
  let done := world_after_wait self w in
  (forall i, 0 <= i < arrayLength ->
     Result_at self done i = Float32.add (A_at self w i) (B_at self w i)) /\
  (forall i, ~ 0 <= i < arrayLength ->
     Result_at self done i = Result_at self w i) /\
  (forall h i, h <> _mBufferResult self ->
     buf_contents (w_heap done h) i = buf_contents (w_heap w h) i) /\
  (forall h, buf_length (w_heap done h) = buf_length (w_heap w h)).
Proof.
  intros done.
  assert (HN : 0 <= arrayLength) by apply arrayLength_nonneg.
  split; [|split; [|split]].
  - intros i Hi. unfold Result_at, A_at, B_at, done.
    rewrite (world_after_wait_ideal_contents self w _ i Hdev).
    rewrite Nat.eqb_refl, fold_add_arrays, Z2Nat.id by exact HN.
    destruct (Z.leb_spec 0 i), (Z.ltb_spec i (0 + arrayLength));
      cbn [andb]; try reflexivity; lia.
  - intros i Hi. unfold Result_at, done.
    rewrite (world_after_wait_ideal_contents self w _ i Hdev).
    rewrite Nat.eqb_refl, fold_add_arrays, Z2Nat.id by exact HN.
    destruct (Z.leb_spec 0 i), (Z.ltb_spec i (0 + arrayLength));
      cbn [andb]; try reflexivity; lia.
  - intros h i Hh. unfold done.
    rewrite (world_after_wait_ideal_contents self w h i Hdev).
    destruct (Nat.eqb_spec h (_mBufferResult self)); [contradiction|reflexivity].
  - intros h. reflexivity.
Qed.

Lemma ideal_dispatch_adds_elementwise_witness :
  execute (_mDevice ideal_adder) = run_add_arrays /\
  _mBufferA ideal_adder <> _mBufferResult ideal_adder /\
  _mBufferB ideal_adder <> _mBufferResult ideal_adder /\
  forall i, 0 <= i < arrayLength ->
    Result_at ideal_adder (world_after_wait ideal_adder mismatch_world) i =
    Float32.add (A_at ideal_adder mismatch_world i)
                (B_at ideal_adder mismatch_world i).
Proof.
  assert (HA : _mBufferA ideal_adder <> _mBufferResult ideal_adder)
    by discriminate.
  assert (HB : _mBufferB ideal_adder <> _mBufferResult ideal_adder)
    by discriminate.
  split; [reflexivity|]. split; [exact HA|]. split; [exact HB|].
  exact (proj1 (ideal_dispatch_adds_elementwise ideal_adder mismatch_world
                  eq_refl HA HB)).
Defined.

(** ** [main] on any device *)

Lemma MetalAdder_new_cases {P : Platform} (device : Device) (w : World) :
  MetalAdder_new device w = Abort w \/
  exists adder, MetalAdder_new device w = Ok adder w.
Proof.
  unfold MetalAdder_new.
  destruct (newLibrary device shaderSrc) as [lib|]; [|left; reflexivity].
  destruct (newFunction device lib "add_arrays") as [fn|]; [|left; reflexivity].
  destruct (newComputePipelineState device fn) as [pso|]; [|left; reflexivity].
  destruct (newCommandQueue device) as [queue|]; [|left; reflexivity].
  right. eexists. reflexivity.
Qed.

(** The runs of [main] whose allocations succeed, by how far they
    get. *)
Lemma main_outcomes {P : Platform}
    (device : Device) (w : World) :
  let t := elapsed_ms w in
  let report := [LineElapsed t; LineBandwidth (bandwidth t)] in
  (aborted (main device w) = true /\
   w_stdout (final_world (main device w)) = w_stdout w) \/
  (exists w', main device w = Ok 0 w' /\ w_stdout w' = w_stdout w ++ report) \/
  (aborted (main device w) = true /\
   exists j r s,
     0 <= j < arrayLength /\ Float32.eq r s = false /\
     w_stdout (final_world (main device w)) =
     w_stdout w ++ report ++ [LineComputeError j r s]).
Proof.
  intros t report.
  destruct (MetalAdder_new_cases device w) as [Hnew|(adder & Hnew)].
  { left.
    assert (Hmain : main device w = Abort w)
      by (unfold main; apply (bind_Abort _ _ w w Hnew)).
    split.
    - exact (f_equal aborted Hmain).
    - exact (f_equal (fun o => w_stdout (final_world o)) Hmain). }
  destruct (prepareData_spec adder w)
    as (self & w1 & Hprep & _ & _ & _ & _ & _ & _ & Hout & Hclock & Hreads & _).
  assert (Ht : elapsed_ms w1 = t).
  { unfold t, elapsed_ms. rewrite Hclock, Hreads. reflexivity. }
  set (reported :=
         print (LineBandwidth (bandwidth (elapsed_ms w1)))
               (print (LineElapsed (elapsed_ms w1)) (world_after_wait self w1))).
  assert (Hrep : w_stdout reported = w_stdout w ++ report).
  { unfold reported, report. cbn [print w_stdout world_after_wait].
    rewrite Hout, Ht, <- app_assoc. reflexivity. }
  assert (Hstep : forall o,
            sendComputeCommand self w1 = o ->
            main device w = bind (fun _ => o) (fun _ => ret 0) w1).
  { intros o <-. unfold main.
    eapply eq_trans; [apply (bind_Ok _ _ w adder w Hnew)|].
    eapply eq_trans; [apply (bind_Ok _ _ w self w1 Hprep)|].
    reflexivity. }
  assert (Hcases :
    sendComputeCommand self w1 = Abort w1 \/
    sendComputeCommand self w1 = verifyResults self reported).
  { destruct (commandBuffer_ok (_mDevice self)) eqn:Hcb.
    - destruct (computeCommandEncoder_ok (_mDevice self)) eqn:Henc.
      + right. apply sendComputeCommand_unfold; assumption.
      + left. apply sendComputeCommand_no_encoder; assumption.
    - left. apply sendComputeCommand_no_commandBuffer; assumption. }
  destruct Hcases as [Hsend|Hsend].
  { left. pose proof (Hstep _ Hsend) as Hmain.
    change (bind (fun _ => Abort w1) (fun _ => ret 0) w1)
      with (@Abort P Z w1) in Hmain.
    split.
    - exact (f_equal aborted Hmain).
    - exact (eq_trans (f_equal (fun o => w_stdout (final_world o)) Hmain) Hout). }
  destruct (verifyResults_spec self reported)
    as [[Hver _]|(j & Hj & Hne & _ & Hver)].
  - right. left. exists reported. split; [|exact Hrep].
    exact (Hstep _ (eq_trans Hsend Hver)).
  - right. right.
    pose proof (Hstep _ (eq_trans Hsend Hver)) as Hmain.
    cbv beta in Hmain.
    change (bind (fun _ => Abort ?x) (fun _ => ret 0) w1) with (@Abort P Z x)
      in Hmain.
    split; [exact (f_equal aborted Hmain)|].
    exists j, (Result_at self reported j), (sum_at self reported j).
    split; [exact Hj|]. split; [exact Hne|].
    eapply eq_trans;
      [exact (f_equal (fun o => w_stdout (final_world o)) Hmain)|].
    cbn [final_world print w_stdout]. fold reported. rewrite Hrep.
    rewrite <- app_assoc. reflexivity.
Qed.

(** X8.  A run of [main] that returns has returned 0 and has printed
    the elapsed-time line and the bandwidth line and nothing else.  A
    run that an assertion stops has printed nothing, or has printed
    those two lines and one mismatch line, which names an index below
    [arrayLength] whose two values compare unequal.  (A run that
    crashes on a null buffer does neither.)  So status 0 goes with
    exactly two lines of output, and an assertion never leaves more
    than three. *)
Theorem main_prints_two_lines_or_aborts {P : Platform}
    (device : Device) (w : World) :
  let t := elapsed_ms w in
  let report := [LineElapsed t; LineBandwidth (bandwidth t)] in
  (forall status w',
     main device w = Ok status w' ->
     status = 0 /\ w_stdout w' = w_stdout w ++ report) /\
  (forall w',
     main device w = Abort w' ->
     w_stdout w' = w_stdout w \/
     exists j r s,
       0 <= j < arrayLength /\ Float32.eq r s = false /\
       w_stdout w' = w_stdout w ++ report ++ [LineComputeError j r s]).
Proof.
  intros t report.
  pose proof (main_outcomes device w) as Hcases. cbv zeta in Hcases.
  fold t in Hcases. fold report in Hcases.
  split.
  - intros status w' Hok.
    destruct Hcases as [[Hab _]|[(w0 & Hmain & Hout)|[Hab _]]].
    + pose proof (eq_trans (eq_sym Hab) (f_equal aborted Hok)) as H.
      discriminate H.
    + pose proof (eq_trans (eq_sym Hmain) Hok) as Heq.
      injection Heq as <- <-. split; [reflexivity|exact Hout].
    + pose proof (eq_trans (eq_sym Hab) (f_equal aborted Hok)) as H.
      discriminate H.
  - intros w' Habort.
    pose proof (f_equal (fun o => w_stdout (final_world o)) Habort) as Hw.
    cbv beta in Hw. cbn [final_world] in Hw.
    destruct Hcases as [[_ Hout]|[(w0 & Hmain & _)|[_ (j & r & s0 & Hj & Hne & Hout)]]].
    + left. exact (eq_trans (eq_sym Hw) Hout).
    + pose proof (eq_trans (eq_sym (f_equal aborted Hmain))
                    (f_equal aborted Habort)) as H.
      discriminate H.
    + right. exists j, r, s0. split; [exact Hj|]. split; [exact Hne|].
      exact (eq_trans (eq_sym Hw) Hout).
Qed.

Lemma main_on_ideal_gpu_witness :
  PlatformOk lehmer /\
  exists w',
    @main lehmer (ideal_gpu 1024)
      (initial_world (constant_heap half half Float32.zero Float32.zero)
                     clock_3ms) = Ok 0 w' /\
    w_stdout w' = [LineElapsed 3; LineBandwidth (bandwidth 3)].
Proof.
  split; [exact lehmer_ok|].
  pose proof (main_on_ideal_gpu lehmer_ok 1024
                (constant_heap half half Float32.zero Float32.zero) clock_3ms)
    as H.
  cbv zeta in H. destruct H as (w' & Hmain & Hout & _).
  exists w'. split; [exact Hmain|exact Hout].
Defined.

(** ** The bandwidth that is printed *)

Lemma iter_shr_1_nonneg (k : nat) (mrs : shr_record) :
  0 <= shr_m mrs -> 0 <= shr_m (Nat.iter k shr_1 mrs).
Proof.
  intros Hm. induction k as [|k IH].
  - exact Hm.
  - rewrite Nat.iter_succ.
    destruct (Nat.iter k shr_1 mrs) as [m r s]. cbn [shr_m] in IH.
    rewrite shr_1_nonneg by exact IH. cbn [shr_m].
    apply Z.div_pos; lia.
Qed.

Lemma shr_fexp_nonneg (m e : Z) (l : location) :
  0 <= m ->
  0 <= shr_m (fst (shr_fexp Float32.prec Float32.emax m e l)).
Proof.
  intros Hm. unfold shr_fexp, shr.
  destruct (fexp Float32.prec Float32.emax (Zdigits2 m + e) - e) as [|p|p];
    cbn [fst]; try (rewrite shr_m_of_loc; exact Hm).
  rewrite iter_pos_nat. apply iter_shr_1_nonneg.
  rewrite shr_m_of_loc. exact Hm.
Qed.

(** Rounding a non-negative mantissa with sign [sx] gives a zero, a
    finite number or an infinity of that sign. *)
Lemma binary_round_aux_sign (sx : bool) (m e : Z) (l : location) :
  0 <= m ->
  has_sign sx (binary_round_aux Float32.prec Float32.emax sx m e l) = true.
Proof.
  intros Hm. unfold binary_round_aux.
  pose proof (shr_fexp_nonneg m e l Hm) as H1.
  destruct (shr_fexp Float32.prec Float32.emax m e l) as [mrs' e'].
  cbn [fst] in H1.
  pose proof (round_nearest_even_bounds (shr_m mrs') (loc_of_shr_record mrs'))
    as Hrne.
  pose proof (shr_fexp_nonneg
                (round_nearest_even (shr_m mrs') (loc_of_shr_record mrs')) e'
                loc_Exact ltac:(lia)) as H2.
  destruct (shr_fexp Float32.prec Float32.emax
              (round_nearest_even (shr_m mrs') (loc_of_shr_record mrs')) e'
              loc_Exact) as [mrs'' e''].
  cbn [fst] in H2.
  destruct (shr_m mrs'') as [|p|p]; try lia.
  - cbn. apply Bool.eqb_reflx.
  - destruct (e'' <=? Float32.emax - Float32.prec); cbn; apply Bool.eqb_reflx.
Qed.

(** [(float)t] has the sign of [t], with [(float)0 = +0]. *)
Lemma of_int_sign (t : Z) : has_sign (t <? 0) (Float32.of_int t) = true.
Proof.
  unfold Float32.of_int, binary_normalize.
  destruct t as [|p|p]; [reflexivity| |]; unfold binary_round;
    destruct (shl_align p 0 _) as [mz ez];
    apply (binary_round_aux_sign _ (Zpos mz) ez loc_Exact); lia.
Qed.

(** X10.  For every elapsed time [t] the bandwidth handed to [printf]
    is a zero, a finite number or an infinity with the sign of [t]
    (plus for [t >= 0], minus for [t < 0]); in particular it is never
    NaN. *)
Theorem bandwidth_has_sign_of_elapsed (t : Z) :
  has_sign (t <? 0) (bandwidth t) = true /\
  Float32.is_nan (bandwidth t) = false.
Proof.
  assert (Hsign : has_sign (t <? 0) (bandwidth t) = true).
  { rewrite bandwidth_numerator.
    pose proof (of_int_sign t) as Ht.
    change (Float32.of_int 125) with (S754_finite false 16384000 (-17)).
    destruct (Float32.of_int t) as [s|s| |s my ey]; cbn [has_sign] in Ht;
      try discriminate Ht.
    - exact Ht.
    - exact Ht.
    - unfold Float32.div, SFdiv, SFdiv_core_binary. cbn [xorb].
      apply Bool.eqb_prop in Ht. subst s.
      set (e' := Z.min _ _). set (m' := match _ with Zpos _ => _ | _ => _ end).
      assert (Hm' : 0 <= m').
      { unfold m'. destruct (-17 - ey - e') as [|q|q]; try lia.
        rewrite Z.shiftl_mul_pow2 by lia.
        apply Z.mul_nonneg_nonneg; [lia|]. apply Z.pow_nonneg. lia. }
      pose proof (Z_div_mod m' (Zpos my) ltac:(lia)) as Hdm.
      destruct (Z.div_eucl m' (Zpos my)) as [q r].
      destruct Hdm as [Hq Hr].
      apply binary_round_aux_sign. nia. }
  split; [exact Hsign|].
  destruct (bandwidth t); cbn in Hsign |- *; try reflexivity.
  discriminate Hsign.
Qed.

(** ** The bindings of [encodeAddCommand] *)

(** X12.  Whatever the encoder held before, after [encodeAddCommand]
    its pipeline state is the adder's, argument 0 is buffer A,
    argument 1 buffer B and argument 2 buffer Result, each at offset 0
    (the three bindings do not overwrite one another, so the kernel's
    [inA], [inB] and [result] are A, B and Result in this order), and
    every other argument slot is as it was. *)
Theorem encodeAddCommand_binds_three_buffers
    (self : MetalAdder) (enc : ComputeCommandEncoder) :
  let enc' := encodeAddCommand self enc in
  enc_pipeline enc' = Some (_mAddFunctionPSO self) /\
  enc_buffers enc' 0 = Some (_mBufferA self, 0) /\
  enc_buffers enc' 1 = Some (_mBufferB self, 0) /\
  enc_buffers enc' 2 = Some (_mBufferResult self, 0) /\
  (forall i, i <> 0 -> i <> 1 -> i <> 2 ->
     enc_buffers enc' i = enc_buffers enc i).
Proof.
  intros enc'. repeat (split; [reflexivity|]).
  intros i H0 H1 H2. unfold enc', encodeAddCommand.
  cbn [enc_buffers dispatchThreads setBuffer setComputePipelineState].
  destruct (Z.eqb_spec i 2); [contradiction|].
  destruct (Z.eqb_spec i 1); [contradiction|].
  destruct (Z.eqb_spec i 0); [contradiction|].
  reflexivity.
Qed.

(** ** Verification on a device that runs the kernel as written *)

(** A float compares equal to itself unless it is NaN. *)
Lemma eq_self (x : float) : Float32.eq x x = negb (Float32.is_nan x).
Proof.
  destruct (Float32.eq x x) eqn:E.
  - apply eq_true_iff in E. destruct E as [[_ Hn]|[Hz _]].
    + rewrite Hn. reflexivity.
    + destruct x; try discriminate Hz. reflexivity.
  - destruct (Float32.is_nan x) eqn:Hn; [reflexivity|].
    assert (H : Float32.eq x x = true)
      by (apply eq_true_iff; left; split; [reflexivity|exact Hn]).
    rewrite H in E. discriminate E.
Qed.

(** X13.  On a device that hands out command buffer and encoder and
    runs [add_arrays] as written, with Result distinct from A and B,
    [sendComputeCommand] returns exactly when no sum [A[i] + B[i]] with
    [i] below [arrayLength] is NaN: on such a device a NaN sum is the
    only thing that makes the verification abort. *)
Theorem ideal_device_passes_unless_nan {P : Platform}
    (self : MetalAdder) (w : World)
    (Hcb : commandBuffer_ok (_mDevice self) = true)
    (Henc : computeCommandEncoder_ok (_mDevice self) = true)
    (Hdev : execute (_mDevice self) = run_add_arrays)
    (HA : _mBufferA self <> _mBufferResult self)
    (HB : _mBufferB self <> _mBufferResult self) :
  (exists w', sendComputeCommand self w = Ok tt w') <->
  (forall i, 0 <= i < arrayLength ->
     Float32.is_nan (Float32.add (A_at self w i) (B_at self w i)) = false).
Proof.
  set (reported :=
         print (LineBandwidth (bandwidth (elapsed_ms w)))
               (print (LineElapsed (elapsed_ms w)) (world_after_wait self w))).
  pose proof (sendComputeCommand_unfold self w Hcb Henc) as Hsend.
  fold reported in Hsend.
  assert (Hres : forall i, 0 <= i < arrayLength ->
            Result_at self (world_after_wait self w) i =
            Float32.add (A_at self w i) (B_at self w i)).
  { intros i Hi. unfold Result_at, A_at, B_at.
    rewrite (world_after_wait_ideal_contents self w _ i Hdev).
    rewrite Nat.eqb_refl, fold_add_arrays, Z2Nat.id
      by apply arrayLength_nonneg.
    destruct (Z.leb_spec 0 i), (Z.ltb_spec i (0 + arrayLength));
      cbn [andb]; try reflexivity; lia. }
  assert (Hother : forall h i, h <> _mBufferResult self ->
            buf_contents (w_heap (world_after_wait self w) h) i =
            buf_contents (w_heap w h) i).
  { intros h i Hh.
    rewrite (world_after_wait_ideal_contents self w h i Hdev).
    destruct (Nat.eqb_spec h (_mBufferResult self)); [contradiction|reflexivity]. }
  assert (Hcmp : forall i, 0 <= i < arrayLength ->
            Float32.eq (Result_at self reported i) (sum_at self reported i) =
            negb (Float32.is_nan
                    (Float32.add (A_at self w i) (B_at self w i)))).
  { intros i Hi.
    change (Result_at self reported i)
      with (Result_at self (world_after_wait self w) i).
    change (sum_at self reported i)
      with (Float32.add
              (buf_contents (w_heap (world_after_wait self w) (_mBufferA self)) i)
              (buf_contents (w_heap (world_after_wait self w) (_mBufferB self)) i)).
    rewrite (Hres i Hi), (Hother _ i HA), (Hother _ i HB).
    apply eq_self. }
  split.
  - intros (w' & Hok) i Hi.
    destruct (verifyResults_spec self reported)
      as [[_ Hall]|(j & _ & _ & _ & Hver)].
    + pose proof (Hall i Hi) as H. rewrite (Hcmp i Hi) in H.
      apply negb_true_iff in H. exact H.
    + exfalso.
      pose proof (eq_trans (eq_sym (f_equal aborted Hok))
                    (f_equal aborted (eq_trans Hsend Hver))) as H.
      discriminate H.
  - intros Hnan. exists reported.
    eapply eq_trans; [exact Hsend|].
    apply verifyResults_all_equal. intros i Hi.
    rewrite (Hcmp i Hi), (Hnan i Hi). reflexivity.
Qed.

Lemma ideal_device_passes_unless_nan_witness :
  commandBuffer_ok (_mDevice ideal_adder) = true /\
  computeCommandEncoder_ok (_mDevice ideal_adder) = true /\
  execute (_mDevice ideal_adder) = run_add_arrays /\
  _mBufferA ideal_adder <> _mBufferResult ideal_adder /\
  _mBufferB ideal_adder <> _mBufferResult ideal_adder /\
  exists w', sendComputeCommand ideal_adder mismatch_world = Ok tt w'.
Proof.
  assert (HA : _mBufferA ideal_adder <> _mBufferResult ideal_adder)
    by discriminate.
  assert (HB : _mBufferB ideal_adder <> _mBufferResult ideal_adder)
    by discriminate.
  split; [reflexivity|]. split; [reflexivity|]. split; [reflexivity|].
  split; [exact HA|]. split; [exact HB|].
  apply (proj2 (ideal_device_passes_unless_nan ideal_adder mismatch_world
                  eq_refl eq_refl eq_refl HA HB)).
  intros i _. reflexivity.
Defined.
